(** * sf-log: a logger that stores its entries in a Salesforce org

    A shallow embedding of the TypeScript sources [types.ts], [sf.ts],
    [setup.ts] and [logger.ts], and the properties of the record mapping,
    the provisioning protocol and the logger facade proved over it.

    Layout: the JavaScript values the code manipulates ([Js]), the effect
    monad of the asynchronous code ([Eff]), one module per source file
    ([Types], [Sf], [Setup], [LoggerTs]), an in-memory org used to run the
    code on concrete inputs ([FakeOrg]), and then the lemmas. *)

From Stdlib Require Import ZArith String Ascii Lia.
From stdpp Require Import base strings gmap list pretty.

Open Scope string_scope.
Open Scope Z_scope.

(** ** JavaScript values, strings, arrays and object literals *)

Module Js.

(** The values a property of a log record holds: the TypeScript type
    [string | undefined].  A string is its sequence of code units. *)
Inductive val : Type :=
| VUndef
| VStr (s : string).

#[export] Instance val_eq_dec : EqDecision val.
Proof. solve_decision. Defined.

(** A plain object: its own enumerable properties.  A key mapped to
    [VUndef] is a property that is present and holds [undefined], which
    is not the same object as one without the key. *)
Abbreviation obj := (gmap string val).

(** [o.k]: reading a property that is not there gives [undefined]. *)
Definition get (o : obj) (k : string) : val := default VUndef (o !! k).

(** String conversion, as done by a template literal [`${v}`] and by
    [+=] with a string operand. *)
Definition to_string (v : val) : string :=
  match v with
  | VUndef => "undefined"
  | VStr s => s
  end.

(** [a ?? b] *)
Definition nullish (a b : val) : val :=
  match a with
  | VUndef => b
  | VStr _ => a
  end.

(** The line feed of the escape [\n]. *)
Definition LF : string := String (ascii_of_nat 10) EmptyString.

(** [String.prototype.slice(start, end)] on integer arguments: negative
    indices count from the end, everything is clamped to the string. *)
Definition slice (s : string) (start end_ : Z) : string :=
  let len := Z.of_nat (String.length s) in
  let from := if start <? 0 then Z.max (len + start) 0 else Z.min start len in
  let to := if end_ <? 0 then Z.max (len + end_) 0 else Z.min end_ len in
  let span := Z.max (to - from) 0 in
  substring (Z.to_nat from) (Z.to_nat span) s.

(** [Array.prototype.join(sep)] on an array of strings. *)
Fixpoint join (sep : string) (l : list string) : string :=
  match l with
  | [] => ""
  | [x] => x
  | x :: rest => x ++ sep ++ join sep rest
  end.

(** [Boolean(s)] for a string: only the empty string is falsy. *)
Definition truthy_string (s : string) : bool :=
  match s with
  | EmptyString => false
  | String _ _ => true
  end.

(** A number: [NaN], an infinity, the negative zero, an integer of
    magnitude below 2^53 (each of them is a number, the positive zero among
    them), or any other finite number, that is one that is not an integer
    or whose magnitude is 2^53 or more.  Of the latter the code only copies
    the string form, which the value carries ([2.5], [1e+21]). *)
Inductive number : Type :=
| NaN
| Infinity (negative : bool)
| NegativeZero
| Integer (n : Z) (safe : (Z.abs n <? 2 ^ 53) = true)
| OtherFinite (text : string).

(** [Boolean(n)]: the zeros and [NaN] are falsy, every other number is
    truthy. *)
Definition truthy_number (n : number) : bool :=
  match n with
  | NaN => false
  | NegativeZero => false
  | Integer n _ => negb (n =? 0)
  | Infinity _ => true
  | OtherFinite _ => true
  end.

(** [`${n}`]: an integer of magnitude below 2^53 prints as its decimal
    numeral, both zeros as [0]. *)
Definition number_to_string (n : number) : string :=
  match n with
  | NaN => "NaN"
  | Infinity false => "Infinity"
  | Infinity true => "-Infinity"
  | NegativeZero => "0"
  | Integer n _ => pretty n
  | OtherFinite text => text
  end.

(** [Array.prototype.includes] on an array of strings. *)
Definition includes (l : list string) (x : string) : bool :=
  bool_decide (x ∈ l).

(** An object literal [{ k1: v1, ...o, k2: v2 }] is a sequence of
    property definitions and spreads, evaluated left to right: a later
    item overwrites the keys it shares with the earlier ones.  Spreading
    [undefined] (an omitted optional argument) copies nothing. *)
Inductive item : Type :=
| Prop_ (k : string) (v : val)
| Spread (o : option obj).

Definition define (acc : obj) (it : item) : obj :=
  match it with
  | Prop_ k v => <[k := v]> acc
  | Spread (Some o) => o ∪ acc
  | Spread None => acc
  end.

Definition object (items : list item) : obj := foldl define ∅ items.

End Js.

Export Js.

Notation "k ::= v" := (Prop_ k v) (at level 60, no associativity).
Notation "'...' o" := (Spread (Some o)) (at level 60, no associativity).
Notation "'...?' o" := (Spread o) (at level 60, no associativity).

(** ** Exceptions, remote calls and the effect monad *)

Module Eff.

(** A thrown error object: its [errorCode] property ([undefined] on a
    plain [new Error(msg)]) and its message. *)
Record Exn : Type := mkExn { errorCode : val; exn_message : string }.

(** [new Error(msg)] *)
Definition Error (msg : string) : Exn :=
  {| errorCode := VUndef; exn_message := msg |}.

(** Calling a method on [undefined]. *)
Definition TypeError (msg : string) : Exn :=
  {| errorCode := VUndef; exn_message := msg |}.

Inductive Result (A : Type) : Type :=
| Ok (a : A)
| Throw (e : Exn).
Arguments Ok {A} a.
Arguments Throw {A} e.

(** What the connection hands back. *)
Record Field : Type := { name : string }.
Record DescribeSObjectResult : Type := { fields : list Field }.
Record QueryResult : Type := { records : list obj }.
Record IdentityInfo : Type := { user_id : string }.
Record SaveResult : Type := { success : bool; errors : option (list string) }.
(** Of a finished deployment only [response.success] and the serialised
    [response.details] are looked at. *)
Record DeployResult : Type :=
  { response_success : bool; response_details : string }.

(** The connection to the org, as far as this code uses it.  The org is a
    state of some type [St]; every operation may fail and may change it. *)
Record Connection (St : Type) : Type := {
  conn_describe : string → St → Result DescribeSObjectResult * St;
  conn_insert : string → obj → St → Result SaveResult * St;
  conn_create : string → obj → St → Result SaveResult * St;
  conn_query : string → St → Result QueryResult * St;
  conn_identity : St → Result IdentityInfo * St;
  conn_deploy : string → St → Result DeployResult * St;
}.
Arguments conn_describe {St}.
Arguments conn_insert {St}.
Arguments conn_create {St}.
Arguments conn_query {St}.
Arguments conn_identity {St}.
Arguments conn_deploy {St}.

(** The remote calls a run has issued, oldest first. *)
Inductive Call : Type :=
| CallDescribe (sobject : string)
| CallInsert (sobject : string) (record : obj)
| CallCreate (sobject : string) (record : obj)
| CallQuery (soql : string)
| CallIdentity
| CallDeploy (folder : string).

(** A deploy or a record creation changes the org; describe, query and
    identity only read it. *)
Definition is_mutation (c : Call) : bool :=
  match c with
  | CallInsert _ _ | CallCreate _ _ | CallDeploy _ => true
  | CallDescribe _ | CallQuery _ | CallIdentity => false
  end.

(** Local output: the console echo of a record (the object that is
    serialised) and the lines of the [debug] channel. *)
Inductive Output : Type :=
| ConsoleLogJson (o : obj)
| DebugLine (msg : string)
| DebugError (msg : string) (error : Exn).

Record World (St : Type) : Type := mkWorld {
  backend : St;
  calls : list Call;
  output : list Output;
}.
Arguments mkWorld {St}.
Arguments backend {St}.
Arguments calls {St}.
Arguments output {St}.

(** An asynchronous computation, run to completion: it ends in a value
    or in a thrown exception, and leaves a world behind. *)
Definition M (St A : Type) : Type := World St → Result A * World St.

Section Monad.
Context {St : Type}.

Definition ret {A} (a : A) : M St A := fun w => (Ok a, w).

Definition throw {A} (e : Exn) : M St A := fun w => (Throw e, w).

Definition bind {A B} (m : M St A) (k : A → M St B) : M St B :=
  fun w =>
    match m w with
    | (Ok a, w') => k a w'
    | (Throw e, w') => (Throw e, w')
    end.

(** [try { m } catch (error) { h error }] *)
Definition try_catch {A} (m : M St A) (h : Exn → M St A) : M St A :=
  fun w =>
    match m w with
    | (Ok a, w') => (Ok a, w')
    | (Throw e, w') => h e w'
    end.

(** [try { x = m } catch (error) { h error }; k x] where the handler
    always leaves the function, by [return] or by [throw]. *)
Definition try_or_leave {A B} (m : M St A) (h : Exn → M St B)
    (k : A → M St B) : M St B :=
  fun w =>
    match m w with
    | (Ok a, w') => k a w'
    | (Throw e, w') => h e w'
    end.

(** A synchronous computation that may throw. *)
Definition lift {A} (r : Result A) : M St A := fun w => (r, w).

(** One remote call: it is recorded, then performed on the org. *)
Definition remote {A} (c : Call) (op : St → Result A * St) : M St A :=
  fun w =>
    let (r, s') := op (backend w) in
    (r, {| backend := s'; calls := calls w ++ [c]; output := output w |}).

Definition print (o : Output) : M St unit :=
  fun w =>
    (Ok tt, {| backend := backend w; calls := calls w;
               output := output w ++ [o] |}).

(** [debug(msg)] and [debug(msg, error)] of [debug.ts]. *)
Definition debug (msg : string) : M St unit := print (DebugLine msg).
Definition debug_error (msg : string) (error : Exn) : M St unit :=
  print (DebugError msg error).
End Monad.

End Eff.

Export Eff.

Notation "'let!' x ':=' m 'in' k" := (bind m (fun x => k))
  (at level 10, x name, m at level 100, k at level 200).
Notation "m ';;' k" := (bind m (fun _ => k))
  (at level 100, k at level 200, right associativity).

(** ** types.ts *)

Module Types.

(** [type LogLevel = 'trace' | 'debug' | 'info' | 'warn' | 'error' | 'fatal'] *)
Definition LogLevel : list string :=
  ["trace"; "debug"; "info"; "warn"; "error"; "fatal"].

(** [type BaseLog]: [level] is a log level and [message] a string; the
    optional [stack], [system] and [user] may be missing or hold
    [undefined] or a string, which is every value of [val]. *)
Definition BaseLog (log : obj) : Prop :=
  (∃ l, l ∈ LogLevel ∧ log !! "level" = Some (VStr l)) ∧
  (∃ m, log !! "message" = Some (VStr m)).

(** The same as a check that computes. *)
Definition isBaseLog (log : obj) : bool :=
  match log !! "level", log !! "message" with
  | Some (VStr l), Some (VStr _) => bool_decide (l ∈ LogLevel)
  | _, _ => false
  end.

(** [s.slice(a, b)] on a receiver that must be a string. *)
Definition call_slice (receiver : val) (a b : Z) : Result val :=
  match receiver with
  | VStr s => Ok (VStr (slice s a b))
  | VUndef =>
      Throw (TypeError "Cannot read properties of undefined (reading 'slice')")
  end.

(** [s?.slice(a, b)] *)
Definition opt_slice (receiver : val) (a b : Z) : val :=
  match receiver with
  | VStr s => VStr (slice s a b)
  | VUndef => VUndef
  end.

Definition fromSfLog (sfLog : obj) : obj :=
  object [
    "id" ::= get sfLog "Id";
    "level" ::= get sfLog "Level__c";
    "message" ::= get sfLog "Message__c";
    "stack" ::= get sfLog "Stack__c";
    "system" ::= get sfLog "System__c";
    "user" ::= get sfLog "User__c";
    "timestamp" ::= get sfLog "CreatedDate"
  ].

Definition toSfLog (log : obj) : Result obj :=
  match call_slice (get log "message") 0 255 with
  | Throw e => Throw e
  | Ok message =>
      Ok (object [
        "Level__c" ::= get log "level";
        "Message__c" ::= message;
        "Stack__c" ::= opt_slice (get log "stack") 0 32768;
        "System__c" ::= opt_slice (get log "system") 0 255;
        "User__c" ::= opt_slice (get log "user") 0 80
      ])
  end.

Definition LOG_OBJECT : string := "Log__c".

Definition LOG_FIELDS : list string :=
  ["Id"; "Level__c"; "Message__c"; "Stack__c"; "System__c"; "User__c";
   "CreatedDate"].

End Types.

Export Types.

(** ** sf.ts *)

Module Sf.
Section WithConnection.
Context {St : Type} (conn : Connection St).

(** The remote operations of the connection, recorded in the world. *)
Definition describe (objectName : string) : M St DescribeSObjectResult :=
  remote (CallDescribe objectName) (conn_describe conn objectName).
Definition insert (objectName : string) (record : obj) : M St SaveResult :=
  remote (CallInsert objectName record) (conn_insert conn objectName record).
Definition create (objectName : string) (record : obj) : M St SaveResult :=
  remote (CallCreate objectName record) (conn_create conn objectName record).
Definition query (soql : string) : M St QueryResult :=
  remote (CallQuery soql) (conn_query conn soql).
Definition identity : M St IdentityInfo :=
  remote CallIdentity (conn_identity conn).
(** [ComponentSet.fromSource(folder)], [deploy] and [pollStatus], taken
    together as the one opaque deploy operation. *)
Definition deploy (folder : string) : M St DeployResult :=
  remote (CallDeploy folder) (conn_deploy conn folder).

(** [result.errors?.join(', ')] inside a template literal. *)
Definition errors_text (errors : option (list string)) : string :=
  match errors with
  | Some l => join ", " l
  | None => "undefined"
  end.

Definition assignPermissionSet (permissionSetName : string) : M St bool :=
  try_catch
    (let! userInfo := identity in
     let userId := user_id userInfo in
     let permissionSetQuery :=
       "SELECT Id FROM PermissionSet WHERE Name = '" ++ permissionSetName ++ "'" in
     let! permissionSetResult := query permissionSetQuery in
     match records permissionSetResult with
     | [] =>
         throw (Error ("Permission set '" ++ permissionSetName ++ "' not found"))
     | record0 :: _ =>
         let permissionSetId := get record0 "Id" in
         let existingAssignmentQuery :=
           "SELECT Id FROM PermissionSetAssignment WHERE PermissionSetId = '"
           ++ to_string permissionSetId ++ "' AND AssigneeId = '" ++ userId ++ "'" in
         let! existingAssignment := query existingAssignmentQuery in
         if (0 <? Z.of_nat (length (records existingAssignment)))%Z then
           debug ("Permission set '" ++ permissionSetName ++ "' is already assigned");;
           ret false
         else
           let assignment :=
             object [ "PermissionSetId" ::= permissionSetId;
                      "AssigneeId" ::= VStr userId ] in
           let! result := create "PermissionSetAssignment" assignment in
           if success result then
             debug ("Permission set '" ++ permissionSetName ++ "' successfully assigned");;
             ret true
           else
             throw (Error ("Failed to assign permission set: "
                           ++ errors_text (errors result)))
     end)
    (fun error =>
       debug_error "Permission set assignment failed:" error;;
       throw error).

Definition verifyObject (objectName : string) (requiredFields : list string)
  : M St bool :=
  try_or_leave
    (describe objectName)
    (fun error =>
       if bool_decide (errorCode error = VStr "NOT_FOUND") then
         debug ("Object " ++ objectName ++ " not found");;
         ret false
       else
         throw error)
    (fun describe =>
       let existingFields := map name (fields describe) in
       let missingFields :=
         List.filter (fun field => negb (includes existingFields field))
                     requiredFields in
       if (0 <? Z.of_nat (length missingFields))%Z then
         debug ("Missing fields on " ++ objectName ++ " object: "
                ++ join ", " missingFields);;
         ret false
       else
         debug (objectName ++ " object verification successful");;
         ret true).

Definition deployFolder (folder : string) : M St DeployResult :=
  let! result := deploy folder in
  if negb (response_success result) then
    throw (Error ("Deploy failed: " ++ response_details result))
  else
    ret result.

End WithConnection.
End Sf.

(** ** setup.ts *)

Module Setup.
Section WithConnection.
Context {St : Type} (conn : Connection St).
(** [path.resolve(import.meta.dirname, '..', 'force')]: where the
    package is installed. *)
Context (force_folder : string).

Definition verifyLog : M St bool :=
  Sf.verifyObject conn LOG_OBJECT LOG_FIELDS.

Definition deployLog : M St DeployResult :=
  let folder := force_folder in
  Sf.deployFolder conn folder.

Definition assignPermissionSetForLog : M St bool :=
  Sf.assignPermissionSet conn "Log".

Definition setupLog : M St unit :=
  let! verified := verifyLog in
  if negb verified then
    deployLog;;
    assignPermissionSetForLog;;
    let! verified_again := verifyLog in
    if negb verified_again then
      throw (Error "Log object setup failed")
    else ret tt
  else ret tt.

End WithConnection.
End Setup.

(** ** logger.ts *)

Module Logger.

(** A thrown value, as [error] looks at it: an [Error] with its message,
    its stack and its cause (any value again), or some other value, of
    which only the outcome of [JSON.stringify] is used: a string,
    [undefined] (for [undefined], a function or a symbol), or an exception
    (for a BigInt or an object that refers to itself).  An [Error] without
    a cause has the cause [NotAnError (Ok VUndef)]. *)
Inductive Thrown : Type :=
| AnError (message : string) (stack : val) (cause : Thrown)
| NotAnError (json : Result val).

Record GetLogsOptions : Type := { limit : option number }.

Section WithConnection.
Context {St : Type}.
(** [hostname()] and [userInfo().username] of the machine. *)
Context (os_hostname os_username : string).

(** [class Logger] *)
Record t : Type := {
  conn : Connection St;
  defaults : obj;
  echo : bool;
}.

(** [constructor(options)], the options object taken apart. *)
Definition new (options_conn : Connection St) (options_echo : option bool)
    (options_system options_user : val) : t :=
  {| conn := options_conn;
     echo := default false options_echo;
     defaults := object [
       "system" ::= nullish options_system (VStr os_hostname);
       "user" ::= nullish options_user (VStr os_username)
     ] |}.

Context (force_folder : string).

Definition setup (this : t) : M St unit :=
  Setup.setupLog (conn this) force_folder.

Definition log (this : t) (log : obj) : M St unit :=
  let logToInsert := object [ ... defaults this; ... log ] in
  (if echo this then print (ConsoleLogJson logToInsert) else ret tt);;
  let! record := lift (toSfLog logToInsert) in
  Sf.insert (conn this) LOG_OBJECT record;;
  ret tt.

Definition trace (this : t) (message : string) (log_ : option obj) : M St unit :=
  log this (object [ "level" ::= VStr "trace"; "message" ::= VStr message; ...? log_ ]).

Definition debug (this : t) (message : string) (log_ : option obj) : M St unit :=
  log this (object [ "level" ::= VStr "debug"; "message" ::= VStr message; ...? log_ ]).

Definition info (this : t) (message : string) (log_ : option obj) : M St unit :=
  log this (object [ "level" ::= VStr "info"; "message" ::= VStr message; ...? log_ ]).

Definition warn (this : t) (message : string) (log_ : option obj) : M St unit :=
  log this (object [ "level" ::= VStr "warn"; "message" ::= VStr message; ...? log_ ]).

(** The loop [while (cause instanceof Error) { ... }] of [error], on
    the variables [message], [stack] and [cause]. *)
Fixpoint walk_causes (message : string) (stack : val) (cause : Thrown)
  : string * val :=
  match cause with
  | AnError cause_message cause_stack cause_cause =>
      walk_causes
        (message ++ " | Cause: " ++ cause_message)
        (VStr (to_string stack ++ LF ++ "Caused by: " ++ to_string cause_stack))
        cause_cause
  | NotAnError _ => (message, stack)
  end.

(** [message] and [stack] as [error] has them when it calls [log], unless
    the serialisation of the thrown value has thrown. *)
Definition error_parts (thrown : Thrown) : Result (string * val) :=
  match thrown with
  | AnError thrown_message thrown_stack thrown_cause =>
      Ok (walk_causes thrown_message thrown_stack thrown_cause)
  | NotAnError (Ok json) =>
      Ok ("Non error thrown: " ++ to_string json, VUndef)
  | NotAnError (Throw e) => Throw e
  end.

Definition error (this : t) (thrown : Thrown) (log_ : option obj) : M St unit :=
  let! parts := lift (error_parts thrown) in
  let '(message, stack) := parts in
  log this (object [ "level" ::= VStr "error"; "message" ::= VStr message;
                     "stack" ::= stack; ...? log_ ]).

Definition fatal (this : t) (thrown : Thrown) (log_ : option obj) : M St unit :=
  error this thrown (Some (object [ "level" ::= VStr "fatal"; ...? log_ ])).

(** The query text [getLogs] builds. *)
Definition getLogs_soql (options : option GetLogsOptions) : string :=
  let limit_ := match options with
                | Some o => limit o
                | None => None
                end in
  join " " (List.filter truthy_string [
    "SELECT " ++ join ", " LOG_FIELDS;
    "FROM " ++ LOG_OBJECT;
    "ORDER BY CreatedDate DESC";
    match limit_ with
    | Some n => if truthy_number n then "LIMIT " ++ number_to_string n else ""
    | None => ""
    end
  ]).

Definition getLogs (this : t) (options : option GetLogsOptions)
  : M St (list obj) :=
  let soql := getLogs_soql options in
  let! result := Sf.query (conn this) soql in
  ret (map fromSfLog (records result)).

End WithConnection.
End Logger.

(** ** An in-memory org

    A small stand-in for the remote org, on which the code above runs to a
    result: it knows which objects exist and with which fields, whether
    the permission set exists and is assigned, and the stored log rows. *)

Module FakeOrg.

Record Org : Type := {
  sobjects : gmap string (list string);
  permission_set : bool;
  assigned : bool;
  rows : list obj;
  reachable : bool;
}.

Definition not_found : Exn :=
  {| errorCode := VStr "NOT_FOUND"; exn_message := "The requested resource does not exist" |}.
Definition unreachable : Exn :=
  {| errorCode := VStr "ECONNRESET"; exn_message := "socket hang up" |}.

Definition saved : SaveResult := {| success := true; errors := None |}.

Definition fake_describe (objectName : string) (s : Org)
  : Result DescribeSObjectResult * Org :=
  if negb (reachable s) then (Throw unreachable, s)
  else match sobjects s !! objectName with
       | Some names => (Ok {| fields := map Build_Field names |}, s)
       | None => (Throw not_found, s)
       end.

(** A stored row gets its [Id] and [CreatedDate] from the row count. *)
Definition fake_insert (objectName : string) (record : obj) (s : Org)
  : Result SaveResult * Org :=
  let n := pretty (Z.of_nat (length (rows s))) in
  let row := object [ ... record; "Id" ::= VStr ("a00" ++ n);
                      "CreatedDate" ::= VStr ("2025-01-01T00:00:" ++ n) ] in
  (Ok saved,
   {| sobjects := sobjects s; permission_set := permission_set s;
      assigned := assigned s; rows := row :: rows s; reachable := reachable s |}).

Definition fake_create (objectName : string) (record : obj) (s : Org)
  : Result SaveResult * Org :=
  (Ok saved,
   {| sobjects := sobjects s; permission_set := permission_set s;
      assigned := true; rows := rows s; reachable := reachable s |}).

Definition fake_query (soql : string) (s : Org) : Result QueryResult * Org :=
  if String.eqb soql "SELECT Id FROM PermissionSet WHERE Name = 'Log'" then
    (Ok {| records := if permission_set s
                       then [ object [ "Id" ::= VStr "0PS1" ] ] else [] |}, s)
  else if String.prefix "SELECT Id FROM PermissionSetAssignment" soql then
    (Ok {| records := if assigned s
                       then [ object [ "Id" ::= VStr "0Pa1" ] ] else [] |}, s)
  else (Ok {| records := rows s |}, s).

Definition fake_identity (s : Org) : Result IdentityInfo * Org :=
  (Ok {| user_id := "005U" |}, s).

(** Deploying the bundle creates the log object and the permission set. *)
Definition fake_deploy (folder : string) (s : Org) : Result DeployResult * Org :=
  (Ok {| response_success := true; response_details := "{}" |},
   {| sobjects := <[LOG_OBJECT := LOG_FIELDS]> (sobjects s);
      permission_set := true; assigned := assigned s; rows := rows s;
      reachable := reachable s |}).

Definition connection : Connection Org := {|
  conn_describe := fake_describe;
  conn_insert := fake_insert;
  conn_create := fake_create;
  conn_query := fake_query;
  conn_identity := fake_identity;
  conn_deploy := fake_deploy;
|}.

(** A fresh org, one that cannot be reached, and one already set up. *)
Definition empty_org : Org :=
  {| sobjects := ∅; permission_set := false; assigned := false; rows := [];
     reachable := true |}.
Definition offline_org : Org :=
  {| sobjects := ∅; permission_set := false; assigned := false; rows := [];
     reachable := false |}.
Definition ready_org : Org :=
  {| sobjects := {[ LOG_OBJECT := LOG_FIELDS ]}; permission_set := true;
     assigned := true; rows := []; reachable := true |}.
(** An org whose log object lacks the [User__c] field. *)
Definition partial_org : Org :=
  {| sobjects := {[ LOG_OBJECT := ["Id"; "Level__c"; "Message__c"; "Stack__c";
                                   "System__c"; "CreatedDate"] ]};
     permission_set := true; assigned := true; rows := []; reachable := true |}.

Definition start (s : Org) : World Org :=
  {| backend := s; calls := []; output := [] |}.

(** A logger on the fake org, on a machine called [build-host] with the
    user [ci]. *)
Definition logger (system user : val) : Logger.t (St := Org) :=
  Logger.new "build-host" "ci" connection None system user.

End FakeOrg.

(** ** Vocabulary of the statements *)

Module Spec.

(** [t] is [s] cut to its first [limit] code units: a prefix of [s], as
    long as the limit and the length of [s] allow. *)
Definition truncation_of (limit : Z) (s t : string) : Prop :=
  (∃ rest, s = t ++ rest) ∧
  Z.of_nat (String.length t) = Z.min limit (Z.of_nat (String.length s)).

(** The same on a field that may be absent: absent stays absent. *)
Definition truncated (limit : Z) (input output : val) : Prop :=
  match input with
  | VUndef => output = VUndef
  | VStr s => ∃ t, output = VStr t ∧ truncation_of limit s t
  end.

(** The cause chain of an error: the links that are errors themselves,
    up to the first cause that is not. *)
Fixpoint error_links (cause : Logger.Thrown) : list (string * val) :=
  match cause with
  | Logger.AnError message stack cause' => (message, stack) :: error_links cause'
  | Logger.NotAnError _ => []
  end.

Fixpoint concat_strings (l : list string) : string :=
  match l with
  | [] => ""
  | x :: rest => x ++ concat_strings rest
  end.

(** How often [needle] occurs in [s], and whether it does. *)
Fixpoint occurrences (needle s : string) : nat :=
  (if String.prefix needle s then 1 else 0)%nat +
  match s with
  | EmptyString => 0%nat
  | String _ s' => occurrences needle s'
  end.

Definition contains (s needle : string) : bool :=
  negb (Nat.eqb (occurrences needle s) 0).

(** ['A'.repeat(n)] *)
Fixpoint repeat_string (s : string) (n : nat) : string :=
  match n with
  | O => ""
  | S n' => s ++ repeat_string s n'
  end.

(** The fields of a log record that hold text, with their names in the
    backend record; and the optional ones among them. *)
Definition text_fields : list (string * string) :=
  [("message", "Message__c"); ("stack", "Stack__c");
   ("system", "System__c"); ("user", "User__c")].
Definition optional_fields : list (string * string) :=
  [("stack", "Stack__c"); ("system", "System__c"); ("user", "User__c")].

(** The query of [getLogs] without a row cap. *)
Definition unbounded_query : string :=
  "SELECT Id, Level__c, Message__c, Stack__c, System__c, User__c, CreatedDate FROM Log__c ORDER BY CreatedDate DESC".

(** The record a convenience method hands to [log]. *)
Definition level_record (level message : string) (partial : obj) : obj :=
  object [ "level" ::= VStr level; "message" ::= VStr message; ... partial ].

(** The optional fields a logger has defaults for, with their names
    and limits in the backend record. *)
Definition defaulted_fields : list (string * string * Z) :=
  [("system", "System__c", 255); ("user", "User__c", 80)].

End Spec.

Import Spec.

(** ** Inputs the statements are run on *)

Module Examples.

(** A message of 305 code units that starts with [LONG-]. *)
Definition long_record : obj :=
  object [ "level" ::= VStr "warn";
           "message" ::= VStr ("LONG-" ++ repeat_string "A" 300);
           "system" ::= VStr "billing" ].

(** [new Error("Top", {cause: new Error("Mid", {cause: new Error("Root")})})] *)
Definition root_error : Logger.Thrown :=
  Logger.AnError "Root" (VStr ("Error: Root" ++ LF ++ "    at load (app.js:3:9)"))
                 (Logger.NotAnError (Ok VUndef)).
Definition mid_error : Logger.Thrown :=
  Logger.AnError "Mid" (VStr ("Error: Mid" ++ LF ++ "    at parse (app.js:7:11)"))
                 root_error.
Definition top_error : Logger.Thrown :=
  Logger.AnError "Top" (VStr ("Error: Top" ++ LF ++ "    at main (app.js:12:5)"))
                 mid_error.

(** A thrown BigInt: [JSON.stringify(1n)] throws. *)
Definition unserialisable : Logger.Thrown :=
  Logger.NotAnError (Throw (TypeError "Do not know how to serialize a BigInt")).

(** A record that names [system] but leaves it [undefined]. *)
Definition undefined_system_record : obj :=
  object [ "level" ::= VStr "info"; "message" ::= VStr "m";
           "system" ::= VUndef ].

(** [new Logger({conn, system: "S", user: "U"})] on the fake org. *)
Definition SU_logger : Logger.t := FakeOrg.logger (VStr "S") (VStr "U").

End Examples.

(** ** Vocabulary of the further statements *)

Module Protocol.

(** The keys of a backend record and the keys of a log read back. *)
Definition sf_keys : list string :=
  ["Level__c"; "Message__c"; "Stack__c"; "System__c"; "User__c"].
Definition log_keys : list string :=
  ["id"; "level"; "message"; "stack"; "system"; "user"; "timestamp"].

(** The convenience methods with the level each one sets. *)
Definition convenience {St : Type}
  : list (string * (Logger.t → string → option obj → M St unit)) :=
  [("trace", Logger.trace); ("debug", Logger.debug);
   ("info", Logger.info); ("warn", Logger.warn)].

(** The merge [{ ...defaults, ...log }] that [log] maps and inserts. *)
Definition merged {St : Type} (this : Logger.t (St := St)) (log : obj) : obj :=
  object [ ... Logger.defaults this; ... log ].

(** The two queries of [assignPermissionSet] and the assignment record. *)
Definition permission_set_query (permissionSetName : string) : string :=
  "SELECT Id FROM PermissionSet WHERE Name = '" ++ permissionSetName ++ "'".
Definition assignment_query (permissionSetId : val) (userId : string) : string :=
  "SELECT Id FROM PermissionSetAssignment WHERE PermissionSetId = '"
  ++ to_string permissionSetId ++ "' AND AssigneeId = '" ++ userId ++ "'".
Definition assignment_record (permissionSetId : val) (userId : string) : obj :=
  object [ "PermissionSetId" ::= permissionSetId; "AssigneeId" ::= VStr userId ].

(** The value an optional partial record supplies for a key, if any. *)
Definition supplied (log_ : option obj) (k : string) : option val :=
  match log_ with
  | Some partial => partial !! k
  | None => None
  end.

(** Kinds of remote calls. *)
Definition is_insert (c : Call) : bool :=
  match c with CallInsert _ _ => true | _ => false end.
Definition is_deploy (c : Call) : bool :=
  match c with CallDeploy _ => true | _ => false end.
Definition is_create (c : Call) : bool :=
  match c with CallCreate _ _ => true | _ => false end.
Definition is_describe (c : Call) : bool :=
  match c with CallDescribe _ => true | _ => false end.

(** The world after a remote call that left the org in state [s], and
    after a line of local output. *)
Definition called {St : Type} (w : World St) (c : Call) (s : St) : World St :=
  {| backend := s; calls := calls w ++ [c]; output := output w |}.
Definition printed {St : Type} (w : World St) (o : Output) : World St :=
  {| backend := backend w; calls := calls w; output := output w ++ [o] |}.

(** A call that is no part of assigning a permission set. *)
Definition foreign_to_assignment (c : Call) : bool :=
  is_insert c || is_deploy c || is_describe c.

(** The text of the message [debug] prints when an assignment fails. *)
Definition assignment_failed : string := "Permission set assignment failed:".

End Protocol.

Import Protocol.

(** ** More orgs to run on *)

Module Cases.

(** An org whose deployments report success and change nothing. *)
Definition idle_deploy_connection : Connection FakeOrg.Org := {|
  conn_describe := FakeOrg.fake_describe;
  conn_insert := FakeOrg.fake_insert;
  conn_create := FakeOrg.fake_create;
  conn_query := FakeOrg.fake_query;
  conn_identity := FakeOrg.fake_identity;
  conn_deploy := fun folder s =>
    (Ok {| response_success := true; response_details := "{}" |}, s);
|}.

(** An org whose deployments are refused. *)
Definition refused_deploy_connection : Connection FakeOrg.Org := {|
  conn_describe := FakeOrg.fake_describe;
  conn_insert := FakeOrg.fake_insert;
  conn_create := FakeOrg.fake_create;
  conn_query := FakeOrg.fake_query;
  conn_identity := FakeOrg.fake_identity;
  conn_deploy := fun folder s =>
    (Ok {| response_success := false;
           response_details := "componentFailures: 1" |}, s);
|}.

(** An org that has the permission set but has not assigned it. *)
Definition unassigned_org : FakeOrg.Org :=
  {| FakeOrg.sobjects := {[ LOG_OBJECT := LOG_FIELDS ]};
     FakeOrg.permission_set := true; FakeOrg.assigned := false;
     FakeOrg.rows := []; FakeOrg.reachable := true |}.

End Cases.

(** ** Proof steps that recur *)

(** Case analysis on membership in a list that is written out. *)
Ltac elem_of_cases H :=
  repeat (apply elem_of_cons in H as [H|H]; [simplify_eq|]);
  [..|by apply elem_of_nil in H].

(** Lookups in an object literal whose keys are written out. *)
Ltac lookup_literal :=
  unfold object, get; simpl; repeat split; intros; by simplify_map_eq.

(** ** Strings *)

Lemma substring_0_length (n : nat) (s : string) :
  String.length (substring 0 n s) = Nat.min n (String.length s).
Proof.
  revert s. induction n as [|n IH]; intros [|c s]; simpl; auto.
Qed.

Lemma substring_0_prefix (n : nat) (s : string) :
  ∃ rest, s = substring 0 n s ++ rest.
Proof.
  revert s. induction n as [|n IH]; intros [|c s]; simpl.
  - by exists "".
  - by exists (String c s).
  - by exists "".
  - destruct (IH s) as [rest Hrest]. exists rest.
    change (String c s = String c (substring 0 n s ++ rest)). congruence.
Qed.

Lemma slice_0 (s : string) (n : Z) :
  0 ≤ n →
  slice s 0 n = substring 0 (Z.to_nat (Z.min n (Z.of_nat (String.length s)))) s.
Proof.
  intros Hn. unfold slice.
  replace (0 <? 0) with false by reflexivity.
  destruct (n <? 0) eqn:Hneg; [lia|].
  rewrite Z.min_l by lia. rewrite Z.sub_0_r. rewrite Z.max_l by lia.
  reflexivity.
Qed.

Lemma slice_0_truncation (s : string) (n : Z) :
  0 ≤ n → truncation_of n s (slice s 0 n).
Proof.
  intros Hn. rewrite slice_0 by done. split.
  - apply substring_0_prefix.
  - rewrite substring_0_length. lia.
Qed.

Lemma opt_slice_truncated (v : val) (n : Z) :
  0 ≤ n → truncated n v (opt_slice v 0 n).
Proof.
  intros Hn. destruct v as [|s]; simpl; [done|].
  eexists. split; [done|]. by apply slice_0_truncation.
Qed.

(** Cutting a second time changes nothing. *)
Lemma slice_0_idempotent (s : string) (n : Z) :
  0 ≤ n → slice (slice s 0 n) 0 n = slice s 0 n.
Proof.
  intros Hn. rewrite !slice_0 by done.
  rewrite substring_0_length.
  set (k := Z.to_nat (Z.min n (Z.of_nat (String.length s)))).
  replace (Z.to_nat (Z.min n (Z.of_nat (Nat.min k (String.length s))))) with k
    by (unfold k; lia).
  clearbody k. revert s. induction k as [|k IH]; intros [|c s]; simpl; auto.
  by rewrite IH.
Qed.

(** ** The record mapper *)

Lemma isBaseLog_sound (r : obj) : isBaseLog r = true → BaseLog r.
Proof.
  unfold isBaseLog, BaseLog. intros H.
  destruct (r !! "level") as [[|l]|]; try done.
  destruct (r !! "message") as [[|m]|]; try done.
  apply bool_decide_eq_true in H. eauto.
Qed.

(** On a well-typed record the mapper does not throw, and its result is
    the five-field literal. *)
Lemma toSfLog_BaseLog (r : obj) :
  BaseLog r →
  ∃ m, get r "message" = VStr m ∧
    toSfLog r = Ok (object [
      "Level__c" ::= get r "level";
      "Message__c" ::= VStr (slice m 0 255);
      "Stack__c" ::= opt_slice (get r "stack") 0 32768;
      "System__c" ::= opt_slice (get r "system") 0 255;
      "User__c" ::= opt_slice (get r "user") 0 80 ]).
Proof.
  intros [_ [m Hm]]. exists m.
  assert (get r "message" = VStr m) as Hget by (unfold get; by rewrite Hm).
  split; [done|]. unfold toSfLog. by rewrite Hget.
Qed.

Lemma get_fromSfLog (sfLog : obj) :
  get (fromSfLog sfLog) "id" = get sfLog "Id" ∧
  get (fromSfLog sfLog) "level" = get sfLog "Level__c" ∧
  get (fromSfLog sfLog) "message" = get sfLog "Message__c" ∧
  get (fromSfLog sfLog) "stack" = get sfLog "Stack__c" ∧
  get (fromSfLog sfLog) "system" = get sfLog "System__c" ∧
  get (fromSfLog sfLog) "user" = get sfLog "User__c" ∧
  get (fromSfLog sfLog) "timestamp" = get sfLog "CreatedDate".
Proof.
  unfold fromSfLog. lookup_literal.
Qed.

(** Reading the five-field literal that [toSfLog] builds. *)
Lemma get_sf_literal (level message stack system user : val) :
  let sf := object [ "Level__c" ::= level; "Message__c" ::= message;
                     "Stack__c" ::= stack; "System__c" ::= system;
                     "User__c" ::= user ] in
  get sf "Level__c" = level ∧ get sf "Message__c" = message ∧
  get sf "Stack__c" = stack ∧ get sf "System__c" = system ∧
  get sf "User__c" = user.
Proof.
  lookup_literal.
Qed.

(** Replace the reads of a five-field literal in the goal by its fields. *)
Ltac read_sf_literal :=
  match goal with
  | |- context [ object [ _ ::= ?a; _ ::= ?b; _ ::= ?c; _ ::= ?d; _ ::= ?e ] ] =>
      let H := fresh in
      pose proof (get_sf_literal a b c d e) as H; cbv zeta in H;
      destruct H as (?Hlevel & ?Hmessage & ?Hstack & ?Hsystem & ?Huser);
      rewrite ?Hlevel, ?Hmessage, ?Hstack, ?Hsystem, ?Huser
  end.

(** Attaching [Id] and [CreatedDate] leaves the other properties alone. *)
Lemma get_attach_ids (sf : obj) (Id CreatedDate : val) (k : string) :
  let stored := object [ ... sf; "Id" ::= Id; "CreatedDate" ::= CreatedDate ] in
  get stored "Id" = Id ∧ get stored "CreatedDate" = CreatedDate ∧
  (k ≠ "Id" → k ≠ "CreatedDate" → get stored k = get sf k).
Proof.
  unfold object, get; simpl. rewrite (right_id_L ∅ (∪)).
  repeat split; intros; by simplify_map_eq.
Qed.

(** C1 (round trip).  For every BaseLog record [r], mapping it with
    [toSfLog], attaching a backend-assigned [Id] and [CreatedDate] and
    mapping back with [fromSfLog] gives a record with the level of [r], with
    the message, stack, system and user of [r] cut to 255, 32768, 255 and
    80 code units (an absent field stays absent), and with the attached
    [Id] and [CreatedDate] as [id] and [timestamp]. *)
Theorem fromSfLog_toSfLog_roundtrip (r : obj) (Id CreatedDate : string) :
  BaseLog r →
  ∃ sf, toSfLog r = Ok sf ∧
    let stored := object [ ... sf; "Id" ::= VStr Id;
                           "CreatedDate" ::= VStr CreatedDate ] in
    let out := fromSfLog stored in
    get out "level" = get r "level" ∧
    truncated 255 (get r "message") (get out "message") ∧
    truncated 32768 (get r "stack") (get out "stack") ∧
    truncated 255 (get r "system") (get out "system") ∧
    truncated 80 (get r "user") (get out "user") ∧
    get out "id" = VStr Id ∧
    get out "timestamp" = VStr CreatedDate.
Proof.
  intros Hr. destruct (toSfLog_BaseLog r Hr) as (m & Hm & Hsf).
  eexists. split; [exact Hsf|]. cbv zeta.
  match goal with |- context [ Spread (Some ?o) ] => set (sf := o) end.
  destruct (get_sf_literal (get r "level") (VStr (slice m 0 255))
              (opt_slice (get r "stack") 0 32768)
              (opt_slice (get r "system") 0 255)
              (opt_slice (get r "user") 0 80))
    as (Hlevel & Hmessage & Hstack & Hsystem & Huser).
  fold sf in Hlevel, Hmessage, Hstack, Hsystem, Huser.
  set (stored := object [ ... sf; "Id" ::= VStr Id;
                          "CreatedDate" ::= VStr CreatedDate ]).
  assert (∀ k, k ≠ "Id" → k ≠ "CreatedDate" → get stored k = get sf k) as Hkeep.
  { intros k. apply (get_attach_ids sf (VStr Id) (VStr CreatedDate) k). }
  destruct (get_attach_ids sf (VStr Id) (VStr CreatedDate) "") as (HId & HDate & _).
  fold stored in HId, HDate.
  destruct (get_fromSfLog stored) as (-> & -> & -> & -> & -> & -> & ->).
  rewrite !Hkeep by done.
  rewrite Hlevel, Hmessage, Hstack, Hsystem, Huser, HId, HDate, Hm.
  repeat split; try done; by apply opt_slice_truncated.
Qed.

(** The round trip on a record with a long message and no stack. *)
Lemma fromSfLog_toSfLog_roundtrip_witness :
  let r := object [ "level" ::= VStr "warn";
                    "message" ::= VStr ("LONG-" ++ repeat_string "A" 300);
                    "system" ::= VStr "billing" ] in
  BaseLog r ∧
  ∃ sf, toSfLog r = Ok sf ∧
    let out := fromSfLog (object [ ... sf; "Id" ::= VStr "a001";
                                   "CreatedDate" ::= VStr "2025-01-01" ]) in
    get out "level" = get r "level" ∧
    truncated 255 (get r "message") (get out "message") ∧
    truncated 32768 (get r "stack") (get out "stack") ∧
    truncated 255 (get r "system") (get out "system") ∧
    truncated 80 (get r "user") (get out "user") ∧
    get out "id" = VStr "a001" ∧
    get out "timestamp" = VStr "2025-01-01".
Proof.
  assert (BaseLog (object [ "level" ::= VStr "warn";
                    "message" ::= VStr ("LONG-" ++ repeat_string "A" 300);
                    "system" ::= VStr "billing" ])) as Hr
    by (apply isBaseLog_sound; vm_compute; reflexivity).
  split; [exact Hr|].
  exact (fromSfLog_toSfLog_roundtrip _ "a001" "2025-01-01" Hr).
Defined.

(** C2 (write-time truncation).  For every BaseLog record [r], [toSfLog r]
    has a [Message__c] of at most 255 code units and, where present, a
    [Stack__c] of at most 32768, a [System__c] of at most 255 and a
    [User__c] of at most 80; every text field it produces is a prefix of
    the field of [r] it comes from; an optional field that [r] lacks (reads
    as [undefined]) is lacking in the result; and [fromSfLog] hands every
    text field on as it finds it. *)
Theorem toSfLog_truncates_fromSfLog_copies (r : obj) :
  BaseLog r →
  ∃ sf, toSfLog r = Ok sf ∧
    (∃ m, get sf "Message__c" = VStr m ∧ Z.of_nat (String.length m) ≤ 255) ∧
    (∀ s, get sf "Stack__c" = VStr s → Z.of_nat (String.length s) ≤ 32768) ∧
    (∀ s, get sf "System__c" = VStr s → Z.of_nat (String.length s) ≤ 255) ∧
    (∀ s, get sf "User__c" = VStr s → Z.of_nat (String.length s) ≤ 80) ∧
    (∀ k k' t, (k, k') ∈ text_fields → get sf k' = VStr t →
       ∃ s rest, get r k = VStr s ∧ s = t ++ rest) ∧
    (∀ k k', (k, k') ∈ optional_fields → get r k = VUndef →
       get sf k' = VUndef) ∧
    (∀ stored : obj, ∀ k k', (k, k') ∈ text_fields →
       get (fromSfLog stored) k = get stored k').
Proof.
  intros Hr. destruct (toSfLog_BaseLog r Hr) as (m & Hm & Hsf).
  eexists. split; [exact Hsf|].
  destruct (get_sf_literal (get r "level") (VStr (slice m 0 255))
              (opt_slice (get r "stack") 0 32768)
              (opt_slice (get r "system") 0 255)
              (opt_slice (get r "user") 0 80))
    as (_ & Hmessage & Hstack & Hsystem & Huser).
  cbv zeta in Hmessage, Hstack, Hsystem, Huser.
  rewrite Hmessage, Hstack, Hsystem, Huser.
  assert (∀ n v t, 0 ≤ n → opt_slice v 0 n = VStr t →
            ∃ s, v = VStr s ∧ truncation_of n s t) as Hcut.
  { intros n v t Hn Ht. pose proof (opt_slice_truncated v n Hn) as Hv.
    destruct v as [|s]; [done|]. exists s. split; [done|].
    destruct Hv as (t' & Heq & Htr). congruence. }
  assert (∀ n v t, 0 ≤ n → opt_slice v 0 n = VStr t →
            Z.of_nat (String.length t) ≤ n) as Hlen.
  { intros n v t Hn Ht. destruct (Hcut n v t Hn Ht) as (s & _ & _ & Hl). lia. }
  split; [|split; [|split; [|split; [|split; [|split]]]]].
  - eexists. split; [done|].
    pose proof (slice_0_truncation m 255 ltac:(lia)) as [_ Hl]. lia.
  - intros s. by apply Hlen.
  - intros s. by apply Hlen.
  - intros s. by apply Hlen.
  - intros k k' t Hin Ht. unfold text_fields in Hin.
    elem_of_cases Hin.
    + rewrite Hmessage in Ht. injection Ht as <-. rewrite Hm.
      pose proof (slice_0_truncation m 255 ltac:(lia)) as [[rest Hrest] _]. eauto.
    + rewrite Hstack in Ht. destruct (Hcut 32768 _ _ ltac:(lia) Ht) as (s & -> & [rest ?] & _). eauto.
    + rewrite Hsystem in Ht. destruct (Hcut 255 _ _ ltac:(lia) Ht) as (s & -> & [rest ?] & _). eauto.
    + rewrite Huser in Ht. destruct (Hcut 80 _ _ ltac:(lia) Ht) as (s & -> & [rest ?] & _). eauto.
  - intros k k' Hin Hk. unfold optional_fields in Hin.
    elem_of_cases Hin.
    + rewrite Hstack, Hk. done.
    + rewrite Hsystem, Hk. done.
    + rewrite Huser, Hk. done.
  - intros stored k k' Hin. unfold text_fields in Hin.
    destruct (get_fromSfLog stored) as (_ & _ & ? & ? & ? & ? & _).
    elem_of_cases Hin; done.
Qed.

Lemma toSfLog_truncates_fromSfLog_copies_witness :
  BaseLog Examples.long_record ∧
  ∃ sf m, toSfLog Examples.long_record = Ok sf ∧
    get sf "Message__c" = VStr m ∧ Z.of_nat (String.length m) ≤ 255.
Proof.
  assert (BaseLog Examples.long_record) as Hr
    by (apply isBaseLog_sound; vm_compute; reflexivity).
  split; [exact Hr|].
  destruct (toSfLog_truncates_fromSfLog_copies Examples.long_record Hr)
    as (sf & Hsf & (m & Hm & Hlen) & _).
  exists sf, m. auto.
Defined.

(** A message of 300 repeated characters behind the prefix [LONG-] is stored
    with 255 code units and still starts with [LONG-]. *)
Example toSfLog_long_message :
  ∃ sf m, toSfLog Examples.long_record = Ok sf ∧
    get sf "Message__c" = VStr m ∧
    String.length m = 255%nat ∧ String.prefix "LONG-" m = true.
Proof.
  eexists _, _. split; [reflexivity|]. split; [by vm_compute|].
  split; by vm_compute.
Qed.

(** The literal of [toSfLog] defines all five keys: a field the input
    lacks is there with the value [undefined], which is how it reads. *)
Lemma toSfLog_keys (r sf : obj) (k : string) :
  toSfLog r = Ok sf →
  k ∈ ["Level__c"; "Message__c"; "Stack__c"; "System__c"; "User__c"] →
  sf !! k = Some (get sf k).
Proof.
  unfold toSfLog. destruct (call_slice _ _ _) as [message|e]; [|done].
  intros [= <-] Hin. unfold get.
  elem_of_cases Hin; unfold object; simpl; by simplify_map_eq.
Qed.

(** Cutting a field that was cut already changes nothing. *)
Lemma opt_slice_idempotent (v : val) (n : Z) :
  0 ≤ n → opt_slice (opt_slice v 0 n) 0 n = opt_slice v 0 n.
Proof.
  intros Hn. destruct v as [|s]; simpl; [done|]. by rewrite slice_0_idempotent.
Qed.

(** ** The logger facade: [log] and the convenience methods *)

Lemma object_spread_two (d r : obj) : object [ ... d; ... r ] = r ∪ d.
Proof. unfold object; simpl. by rewrite (right_id_L ∅ (∪)). Qed.

Lemma merged_lookup_record (d r : obj) (k : string) :
  is_Some (r !! k) → object [ ... d; ... r ] !! k = r !! k.
Proof. intros H. rewrite object_spread_two. by apply lookup_union_l'. Qed.

Lemma merged_lookup_default (d r : obj) (k : string) :
  r !! k = None → object [ ... d; ... r ] !! k = d !! k.
Proof. intros H. rewrite object_spread_two. by apply lookup_union_r. Qed.

Lemma merged_BaseLog (d r : obj) : BaseLog r → BaseLog (object [ ... d; ... r ]).
Proof.
  intros [(l & Hl & Hlevel) (m & Hm)]. split.
  - exists l. split; [done|]. rewrite merged_lookup_record; eauto.
  - exists m. rewrite merged_lookup_record; eauto.
Qed.

(** What a call of [log] does when the merged record maps to [sf]: one
    insert of [sf] into the log object, whose outcome is the outcome of
    [log]. *)
Lemma log_run {St} (this : Logger.t) (r sf : obj) (w : World St) :
  toSfLog (object [ ... Logger.defaults this; ... r ]) = Ok sf →
  calls (Logger.log this r w).2 = (calls w ++ [CallInsert LOG_OBJECT sf])%list ∧
  backend (Logger.log this r w).2
    = (conn_insert (Logger.conn this) LOG_OBJECT sf (backend w)).2 ∧
  (Logger.log this r w).1
    = match (conn_insert (Logger.conn this) LOG_OBJECT sf (backend w)).1 with
      | Ok _ => Ok tt
      | Throw e => Throw e
      end.
Proof.
  intros Hsf. unfold Logger.log, bind, lift, Sf.insert, remote, print, ret.
  rewrite Hsf. destruct (Logger.echo this); simpl;
    destruct (conn_insert _ _ _ _) as [[?|?] ?]; simpl; done.
Qed.

(** The defaults a constructed logger holds. *)
Lemma new_defaults {St} (hostname username : string) (conn : Connection St)
    (echo : option bool) (system user : val) :
  let this := Logger.new hostname username conn echo system user in
  Logger.defaults this !! "system" = Some (nullish system (VStr hostname)) ∧
  Logger.defaults this !! "user" = Some (nullish user (VStr username)) ∧
  (∀ k, k ≠ "system" → k ≠ "user" → Logger.defaults this !! k = None).
Proof.
  unfold Logger.new. lookup_literal.
Qed.

(** C3 (defaults below the record).  For every logger and every BaseLog
    record [r], [log r] makes one insert into the log object, of [toSfLog]
    of the merge of the defaults and [r]; in the merge every key that [r]
    has keeps the value [r] gives it, and the defaults supply only the
    keys [r] lacks.  On a logger constructed with system [S] and user [U],
    [info("m")] without overrides inserts a record with level [info],
    system [S] and user [U]. *)
Theorem log_record_wins_over_defaults {St : Type} :
  (∀ (this : Logger.t) (r : obj) (w : World St),
     BaseLog r →
     let merged := object [ ... Logger.defaults this; ... r ] in
     (∀ k, is_Some (r !! k) → merged !! k = r !! k) ∧
     (∀ k, r !! k = None → merged !! k = Logger.defaults this !! k) ∧
     ∃ sf, toSfLog merged = Ok sf ∧
       calls (Logger.log this r w).2
         = (calls w ++ [CallInsert LOG_OBJECT sf])%list) ∧
  (∀ (hostname username : string) (conn : Connection St) (echo : option bool)
     (w : World St),
     let this := Logger.new hostname username conn echo (VStr "S") (VStr "U") in
     ∃ sf, calls (Logger.info this "m" None w).2
             = (calls w ++ [CallInsert LOG_OBJECT sf])%list ∧
       get sf "Level__c" = VStr "info" ∧
       get sf "System__c" = VStr "S" ∧
       get sf "User__c" = VStr "U").
Proof.
  split.
  - intros this r w Hr merged.
    split; [intros k; apply merged_lookup_record|].
    split; [intros k; apply merged_lookup_default|].
    destruct (toSfLog_BaseLog merged (merged_BaseLog _ _ Hr)) as (m & _ & Hsf).
    eexists. split; [exact Hsf|]. by apply log_run.
  - intros hostname username conn echo w this.
    pose proof (new_defaults hostname username conn echo (VStr "S") (VStr "U"))
      as Hdefaults. cbv zeta in Hdefaults. fold this in Hdefaults.
    destruct Hdefaults as (Hsys & Husr & _).
    set (r := object [ "level" ::= VStr "info"; "message" ::= VStr "m";
                       ...? None ]).
    assert (BaseLog r) as Hr by (apply isBaseLog_sound; vm_compute; reflexivity).
    set (merged := object [ ... Logger.defaults this; ... r ]).
    destruct (toSfLog_BaseLog merged (merged_BaseLog _ _ Hr)) as (m & _ & Hsf).
    eexists. split; [by apply (log_run this r _ w Hsf)|].
    assert (get merged "level" = VStr "info") as ->.
    { unfold get, merged. by rewrite merged_lookup_record. }
    assert (get merged "system" = VStr "S") as ->.
    { unfold get, merged. rewrite merged_lookup_default by done. by rewrite Hsys. }
    assert (get merged "user" = VStr "U") as ->.
    { unfold get, merged. rewrite merged_lookup_default by done. by rewrite Husr. }
    read_sf_literal. by vm_compute.
Qed.

Lemma log_record_wins_over_defaults_witness :
  BaseLog Examples.undefined_system_record ∧
  ∃ sf, toSfLog (object [ ... Logger.defaults Examples.SU_logger;
                          ... Examples.undefined_system_record ]) = Ok sf ∧
    calls (Logger.log Examples.SU_logger Examples.undefined_system_record
             (FakeOrg.start FakeOrg.ready_org)).2
      = [CallInsert LOG_OBJECT sf].
Proof.
  assert (BaseLog Examples.undefined_system_record) as Hr
    by (apply isBaseLog_sound; vm_compute; reflexivity).
  split; [exact Hr|].
  exact (proj2 (proj2 (proj1 log_record_wins_over_defaults
                         Examples.SU_logger Examples.undefined_system_record
                         (FakeOrg.start FakeOrg.ready_org) Hr))).
Defined.

(** The record a convenience method builds keeps every key of the
    caller's partial record. *)
Lemma level_record_lookup (level message : string) (partial : obj) (k : string) :
  is_Some (partial !! k) → level_record level message partial !! k = partial !! k.
Proof.
  intros H. unfold level_record, object; simpl. by apply lookup_union_l'.
Qed.

Lemma level_record_lookup_level (level message : string) (partial : obj) :
  partial !! "level" = None →
  level_record level message partial !! "level" = Some (VStr level).
Proof.
  intros H. unfold level_record, object; simpl.
  rewrite lookup_union_r by done. by simplify_map_eq.
Qed.

(** C4 (caller's level wins).  When the partial record given to
    [trace], [debug], [info] or [warn] has a [level], the record the method
    passes to [log] is its own level and the message with the partial
    record spread over them, so it carries the caller's level; the record
    inserted then has that level (provided the call gets as far as the
    insert, that is the message of the record is a string).  In
    particular [info(m, {level: 'error'})] passes a record with level
    [error]. *)
Theorem convenience_level_is_overridden {St : Type} (this : Logger.t)
    (message : string) (partial : obj) (v : val) (w : World St) :
  partial !! "level" = Some v →
  (Logger.trace this message (Some partial)
     = Logger.log this (level_record "trace" message partial) ∧
   Logger.debug this message (Some partial)
     = Logger.log this (level_record "debug" message partial) ∧
   Logger.info this message (Some partial)
     = Logger.log this (level_record "info" message partial) ∧
   Logger.warn this message (Some partial)
     = Logger.log this (level_record "warn" message partial)) ∧
  (∀ level, level_record level message partial !! "level" = Some v) ∧
  (∀ level m, get (level_record level message partial) "message" = VStr m →
     ∃ sf, calls (Logger.log this (level_record level message partial) w).2
             = (calls w ++ [CallInsert LOG_OBJECT sf])%list ∧
       get sf "Level__c" = v) ∧
  level_record "info" message {[ "level" := VStr "error" ]} !! "level"
    = Some (VStr "error").
Proof.
  intros Hv.
  assert (∀ level, level_record level message partial !! "level" = Some v) as Hlevel.
  { intros level. rewrite level_record_lookup by eauto. done. }
  split; [done|]. split; [exact Hlevel|]. split.
  - intros level m Hm.
    set (r := level_record level message partial) in *.
    set (merged := object [ ... Logger.defaults this; ... r ]).
    assert (is_Some (r !! "message")) as Hsome.
    { unfold get in Hm. destruct (r !! "message"); [eauto|done]. }
    assert (get merged "message" = VStr m) as Hmm.
    { unfold get, merged. rewrite merged_lookup_record by done. exact Hm. }
    assert (get merged "level" = v) as Hml.
    { pose proof (Hlevel level) as Hrl. fold r in Hrl.
      unfold get, merged. rewrite merged_lookup_record by eauto. by rewrite Hrl. }
    eexists. split.
    + apply log_run. unfold toSfLog. fold merged. rewrite Hmm. simpl. reflexivity.
    + rewrite Hml.
      by read_sf_literal.
  - by apply level_record_lookup; rewrite lookup_singleton_eq.
Qed.

Lemma convenience_level_is_overridden_witness :
  let partial : obj := {[ "level" := VStr "error" ]} in
  partial !! "level" = Some (VStr "error") ∧
  ∃ sf, calls (Logger.info Examples.SU_logger "m" (Some partial)
                 (FakeOrg.start FakeOrg.ready_org)).2
          = [CallInsert LOG_OBJECT sf] ∧
    get sf "Level__c" = VStr "error".
Proof.
  intros partial.
  assert (partial !! "level" = Some (VStr "error")) as Hv by (by vm_compute).
  split; [exact Hv|].
  destruct (convenience_level_is_overridden Examples.SU_logger "m" partial
              (VStr "error") (FakeOrg.start FakeOrg.ready_org) Hv)
    as ((_ & _ & Hinfo & _) & _ & Hrun & _).
  rewrite Hinfo. apply (Hrun "info" "m"). by vm_compute.
Defined.

(** C10 (an explicit undefined hides the default).  On a logger with a
    default for [system] (or [user]), logging a BaseLog record that has
    that key with the value [undefined] inserts a record in which the
    field is [undefined]: the default is not used.  The same record
    without the key gets the default, cut to the limit of the field. *)
Theorem explicit_undefined_suppresses_default {St : Type} (this : Logger.t)
    (r : obj) (w : World St) (k k' : string) (limit_ : Z) (d : string) :
  BaseLog r →
  (k, k', limit_) ∈ defaulted_fields →
  Logger.defaults this !! k = Some (VStr d) →
  r !! k = Some VUndef →
  (∃ sf, calls (Logger.log this r w).2
           = (calls w ++ [CallInsert LOG_OBJECT sf])%list ∧
     get sf k' = VUndef) ∧
  (∃ sf, calls (Logger.log this (delete k r) w).2
           = (calls w ++ [CallInsert LOG_OBJECT sf])%list ∧
     get sf k' = VStr (slice d 0 limit_)).
Proof.
  intros Hr Hin Hd Hk.
  assert (k ≠ "level" ∧ k ≠ "message") as [Hnl Hnm].
  { unfold defaulted_fields in Hin.
    elem_of_cases Hin; done. }
  assert (BaseLog (delete k r)) as Hr'.
  { destruct Hr as [(l & Hl & Hlevel) (m & Hm)]. split.
    - exists l. split; [done|]. by rewrite lookup_delete_ne.
    - exists m. by rewrite lookup_delete_ne. }
  set (merged := object [ ... Logger.defaults this; ... r ]).
  set (merged' := object [ ... Logger.defaults this; ... delete k r ]).
  assert (get merged k = VUndef) as Hmk.
  { unfold get, merged. rewrite merged_lookup_record by eauto. by rewrite Hk. }
  assert (get merged' k = VStr d) as Hmk'.
  { unfold get, merged'. rewrite merged_lookup_default by apply lookup_delete_eq.
    by rewrite Hd. }
  destruct (toSfLog_BaseLog merged (merged_BaseLog _ _ Hr)) as (m & _ & Hsf).
  destruct (toSfLog_BaseLog merged' (merged_BaseLog _ _ Hr')) as (m' & _ & Hsf').
  destruct (get_sf_literal (get merged "level") (VStr (slice m 0 255))
              (opt_slice (get merged "stack") 0 32768)
              (opt_slice (get merged "system") 0 255)
              (opt_slice (get merged "user") 0 80))
    as (_ & _ & _ & Hsystem & Huser).
  destruct (get_sf_literal (get merged' "level") (VStr (slice m' 0 255))
              (opt_slice (get merged' "stack") 0 32768)
              (opt_slice (get merged' "system") 0 255)
              (opt_slice (get merged' "user") 0 80))
    as (_ & _ & _ & Hsystem' & Huser').
  split; (eexists; split; [apply log_run; eassumption|]).
  - unfold defaulted_fields in Hin.
    elem_of_cases Hin.
    + by rewrite Hsystem, Hmk.
    + by rewrite Huser, Hmk.
  - unfold defaulted_fields in Hin.
    elem_of_cases Hin.
    + by rewrite Hsystem', Hmk'.
    + by rewrite Huser', Hmk'.
Qed.

Lemma explicit_undefined_suppresses_default_witness :
  BaseLog Examples.undefined_system_record ∧
  Logger.defaults Examples.SU_logger !! "system" = Some (VStr "S") ∧
  Examples.undefined_system_record !! "system" = Some VUndef ∧
  ∃ sf, calls (Logger.log Examples.SU_logger Examples.undefined_system_record
                 (FakeOrg.start FakeOrg.ready_org)).2
          = [CallInsert LOG_OBJECT sf] ∧
    get sf "System__c" = VUndef.
Proof.
  assert (BaseLog Examples.undefined_system_record) as Hr
    by (apply isBaseLog_sound; vm_compute; reflexivity).
  assert (("system", "System__c", 255) ∈ defaulted_fields) as Hin
    by (unfold defaulted_fields; set_solver).
  assert (Logger.defaults Examples.SU_logger !! "system" = Some (VStr "S")) as Hd
    by (by vm_compute).
  assert (Examples.undefined_system_record !! "system" = Some VUndef) as Hk
    by (by vm_compute).
  repeat (split; [assumption|]).
  exact (proj1 (explicit_undefined_suppresses_default Examples.SU_logger
                  Examples.undefined_system_record
                  (FakeOrg.start FakeOrg.ready_org)
                  "system" "System__c" 255 "S" Hr Hin Hd Hk)).
Defined.

(** ** The logger facade: errors and their causes *)

Lemma string_app_cons (c : ascii) (s t : string) :
  String c s ++ t = String c (s ++ t).
Proof. reflexivity. Qed.

Lemma string_app_assoc (s t u : string) : (s ++ t) ++ u = s ++ t ++ u.
Proof.
  induction s as [|c s IH]; [done|].
  by rewrite !string_app_cons, IH.
Qed.

Lemma string_app_nil_r (s : string) : s ++ "" = s.
Proof.
  induction s as [|c s IH]; [done|]. by rewrite string_app_cons, IH.
Qed.

(** The loop of [error] appends, to the message and the stack it starts
    from, one segment per error link of the chain. *)
Lemma walk_causes_links (cause : Logger.Thrown) (message : string) (stack : val) :
  Logger.walk_causes message stack cause =
    (message ++ concat_strings
       (map (fun link => " | Cause: " ++ link.1) (error_links cause)),
     match error_links cause with
     | [] => stack
     | _ :: _ =>
         VStr (to_string stack ++ concat_strings
                 (map (fun link => LF ++ "Caused by: " ++ to_string link.2)
                      (error_links cause)))
     end).
Proof.
  revert message stack.
  induction cause as [cause_message cause_stack cause IH | json];
    intros message stack; simpl.
  - rewrite IH. f_equal.
    + by rewrite !string_app_assoc.
    + destruct (error_links cause) as [|link links].
      * simpl. by rewrite string_app_nil_r.
      * simpl to_string. f_equal. simpl. by rewrite !string_app_assoc.
  - by rewrite string_app_nil_r.
Qed.

(** [error] is [log] of the record it builds, and throws without
    reaching [log] when the serialisation of the thrown value throws. *)
Lemma error_run_ok {St} (this : Logger.t) (thrown : Logger.Thrown)
    (message : string) (stack : val) (log_ : option obj) (w : World St) :
  Logger.error_parts thrown = Ok (message, stack) →
  Logger.error this thrown log_ w
    = Logger.log this
        (object [ "level" ::= VStr "error"; "message" ::= VStr message;
                  "stack" ::= stack; ...? log_ ]) w.
Proof. intros H. unfold Logger.error, bind, lift. by rewrite H. Qed.

Lemma error_run_throw {St} (this : Logger.t) (thrown : Logger.Thrown)
    (e : Exn) (log_ : option obj) (w : World St) :
  Logger.error_parts thrown = Throw e →
  Logger.error this thrown log_ w = (Throw e, w).
Proof. intros H. unfold Logger.error, bind, lift. by rewrite H. Qed.

(** C5 (cause chain).  For an [Error] with message [message], stack
    [stack] and a finite cause chain, [error] builds the message
    [message] followed by [" | Cause: <msg>"] for every link of the chain
    that is an [Error], up to the first cause that is not one, and the
    stack [stack] followed by ["\nCaused by: <stack>"] for every such link
    (a stack that is [undefined] is printed as such once something is
    appended); it logs them at level [error], so the record inserted has
    them cut to 255 and 32768 code units.  For the chain Top/Mid/Root the
    inserted message contains [Top], [Cause: Mid] and [Cause: Root], and the
    inserted stack has exactly two [Caused by:] markers. *)
Theorem error_appends_every_cause :
  (∀ (message : string) (stack : val) (cause : Logger.Thrown),
     Logger.error_parts (Logger.AnError message stack cause) =
       Ok (message ++ concat_strings
             (map (fun link => " | Cause: " ++ link.1) (error_links cause)),
           match error_links cause with
           | [] => stack
           | _ :: _ =>
               VStr (to_string stack ++ concat_strings
                       (map (fun link => LF ++ "Caused by: " ++ to_string link.2)
                            (error_links cause)))
           end)) ∧
  (∀ (St : Type) (this : Logger.t) (thrown : Logger.Thrown)
     (parts : string * val) (w : World St),
     Logger.error_parts thrown = Ok parts →
     ∃ sf, calls (Logger.error this thrown None w).2
             = (calls w ++ [CallInsert LOG_OBJECT sf])%list ∧
       get sf "Level__c" = VStr "error" ∧
       get sf "Message__c" = VStr (slice parts.1 0 255) ∧
       get sf "Stack__c" = opt_slice parts.2 0 32768) ∧
  (∀ (St : Type) (this : Logger.t) (w : World St),
     ∃ sf m s, calls (Logger.error this Examples.top_error None w).2
                 = (calls w ++ [CallInsert LOG_OBJECT sf])%list ∧
       get sf "Message__c" = VStr m ∧ get sf "Stack__c" = VStr s ∧
       contains m "Top" = true ∧ contains m "Cause: Mid" = true ∧
       contains m "Cause: Root" = true ∧
       occurrences "Caused by:" s = 2%nat).
Proof.
  assert (∀ (St : Type) (this : Logger.t) (thrown : Logger.Thrown)
     (parts : string * val) (w : World St),
     Logger.error_parts thrown = Ok parts →
     ∃ sf, calls (Logger.error this thrown None w).2
             = (calls w ++ [CallInsert LOG_OBJECT sf])%list ∧
       get sf "Level__c" = VStr "error" ∧
       get sf "Message__c" = VStr (slice parts.1 0 255) ∧
       get sf "Stack__c" = opt_slice parts.2 0 32768) as Hrun.
  { intros St this thrown [message stack] w Hparts.
    rewrite (error_run_ok this thrown message stack None w Hparts).
    simpl fst; simpl snd.
    set (r := object [ "level" ::= VStr "error"; "message" ::= VStr message;
                       "stack" ::= stack; ...? None ]).
    set (merged := object [ ... Logger.defaults this; ... r ]).
    assert (r !! "level" = Some (VStr "error") ∧
            r !! "message" = Some (VStr message) ∧
            r !! "stack" = Some stack) as (Hl & Hm & Hs).
    { unfold r. lookup_literal. }
    assert (get merged "level" = VStr "error" ∧ get merged "message" = VStr message
            ∧ get merged "stack" = stack) as (Hml & Hmm & Hms).
    { unfold get, merged. rewrite !merged_lookup_record by eauto.
      by rewrite Hl, Hm, Hs. }
    eexists. split.
    - apply log_run. unfold toSfLog. fold merged. rewrite Hmm. simpl. reflexivity.
    - rewrite Hml, Hms.
      by read_sf_literal. }
  split; [|split; [exact Hrun|]].
  - intros message stack cause. simpl. f_equal. apply walk_causes_links.
  - intros St this w.
    destruct (Hrun St this Examples.top_error _ w eq_refl)
      as (sf & Hcalls & _ & Hm & Hs).
    eexists sf, _, _. split; [exact Hcalls|].
    split; [exact Hm|]. split; [exact Hs|].
    repeat split; by vm_compute.
Qed.

(** The chain Top/Mid/Root on the fake org. *)
Lemma error_appends_every_cause_witness :
  ∃ sf, calls (Logger.error Examples.SU_logger Examples.top_error None
                 (FakeOrg.start FakeOrg.ready_org)).2
          = [CallInsert LOG_OBJECT sf] ∧
    get sf "Message__c" = VStr "Top | Cause: Mid | Cause: Root".
Proof.
  destruct (proj1 (proj2 error_appends_every_cause) FakeOrg.Org
              Examples.SU_logger Examples.top_error _
              (FakeOrg.start FakeOrg.ready_org) eq_refl)
    as (sf & Hcalls & _ & Hm & _).
  exists sf. split; [exact Hcalls|]. rewrite Hm. by vm_compute.
Defined.

(** ** The provisioner *)

Lemma includes_elem_of (l : list string) (x : string) :
  includes l x = true ↔ x ∈ l.
Proof. unfold includes. apply bool_decide_eq_true. Qed.

(** There are missing fields exactly when not all required fields are
    among the existing ones. *)
Lemma missing_fields_test (existingFields requiredFields : list string) :
  (0 <? Z.of_nat (length
          (List.filter (fun field => negb (includes existingFields field))
                       requiredFields)))
  = negb (forallb (includes existingFields) requiredFields).
Proof.
  induction requiredFields as [|field rest IH]; [done|].
  simpl. destruct (includes existingFields field); simpl; [exact IH|].
  apply Z.ltb_lt. lia.
Qed.

Lemma forallb_includes (existingFields requiredFields : list string) :
  forallb (includes existingFields) requiredFields = true
  ↔ ∀ f, f ∈ requiredFields → f ∈ existingFields.
Proof.
  rewrite forallb_forall. split.
  - intros H f Hf. apply includes_elem_of, H. by apply list_elem_of_In.
  - intros H f Hf. apply includes_elem_of, H. by apply list_elem_of_In.
Qed.

(** [verifyObject] makes the one describe call, whatever comes of it. *)
Lemma verifyObject_calls {St} (conn : Connection St) (objectName : string)
    (requiredFields : list string) (w : World St) :
  calls (Sf.verifyObject conn objectName requiredFields w).2
    = (calls w ++ [CallDescribe objectName])%list ∧
  backend (Sf.verifyObject conn objectName requiredFields w).2
    = (conn_describe conn objectName (backend w)).2.
Proof.
  unfold Sf.verifyObject, try_or_leave, Sf.describe, remote, bind, debug, print,
    throw, ret.
  destruct (conn_describe conn objectName (backend w)) as [[d|e] s']; simpl.
  - by destruct (0 <? _).
  - by destruct (bool_decide _).
Qed.

(** Its result is decided by what describe answers on the current org. *)
Lemma verifyObject_result {St} (conn : Connection St) (objectName : string)
    (requiredFields : list string) (w : World St) :
  (Sf.verifyObject conn objectName requiredFields w).1
    = match (conn_describe conn objectName (backend w)).1 with
      | Ok d => Ok (forallb (includes (map name (fields d))) requiredFields)
      | Throw e =>
          if bool_decide (errorCode e = VStr "NOT_FOUND") then Ok false
          else Throw e
      end.
Proof.
  unfold Sf.verifyObject, try_or_leave, Sf.describe, remote, bind, debug, print,
    throw, ret.
  destruct (conn_describe conn objectName (backend w)) as [[d|e] s']; simpl.
  - rewrite missing_fields_test. by destruct (forallb _ _).
  - by destruct (bool_decide _).
Qed.

Lemma verifyObject_true_iff {St} (conn : Connection St) (objectName : string)
    (requiredFields : list string) (w : World St) :
  (Sf.verifyObject conn objectName requiredFields w).1 = Ok true ↔
  ∃ d, (conn_describe conn objectName (backend w)).1 = Ok d ∧
    ∀ f, f ∈ requiredFields → f ∈ map name (fields d).
Proof.
  rewrite verifyObject_result. split.
  - destruct (conn_describe conn objectName (backend w)).1 as [d|e].
    + intros [= H]. exists d. split; [done|]. by apply forallb_includes.
    + by destruct (bool_decide _).
  - intros (d & -> & Hall). f_equal. by apply forallb_includes.
Qed.

(** C7 (verify).  [verifyObject] returns [false], without raising, when
    describe fails with the error code [NOT_FOUND]; it raises the very
    error of describe when that has another error code; it returns [false]
    when describe succeeds but some required field is not among the
    described ones; and it returns [true] exactly when describe succeeds
    and every required field is among the described ones. *)
Theorem verifyObject_cases {St : Type} (conn : Connection St)
    (objectName : string) (requiredFields : list string) (w : World St) :
  let described := (conn_describe conn objectName (backend w)).1 in
  let verified := (Sf.verifyObject conn objectName requiredFields w).1 in
  (∀ e, described = Throw e → errorCode e = VStr "NOT_FOUND" →
        verified = Ok false) ∧
  (∀ e, described = Throw e → errorCode e ≠ VStr "NOT_FOUND" →
        verified = Throw e) ∧
  (∀ d f, described = Ok d → f ∈ requiredFields → f ∉ map name (fields d) →
        verified = Ok false) ∧
  (verified = Ok true ↔
     ∃ d, described = Ok d ∧
       ∀ f, f ∈ requiredFields → f ∈ map name (fields d)).
Proof.
  intros described verified. unfold verified.
  rewrite verifyObject_result. fold described.
  split; [|split; [|split]].
  - intros e -> He. by rewrite bool_decide_eq_true_2.
  - intros e -> He. by rewrite bool_decide_eq_false_2.
  - intros d f -> Hf Hmissing. f_equal.
    apply not_true_is_false. rewrite forallb_includes. naive_solver.
  - unfold described. rewrite <- (verifyObject_true_iff conn objectName requiredFields w).
    by rewrite verifyObject_result.
Qed.

(** Describing the object of a ready org, of an incomplete one, of an
    empty one and of one that cannot be reached. *)
Lemma verifyObject_cases_witness :
  (Sf.verifyObject FakeOrg.connection LOG_OBJECT LOG_FIELDS
     (FakeOrg.start FakeOrg.empty_org)).1 = Ok false ∧
  (Sf.verifyObject FakeOrg.connection LOG_OBJECT LOG_FIELDS
     (FakeOrg.start FakeOrg.offline_org)).1 = Throw FakeOrg.unreachable ∧
  (Sf.verifyObject FakeOrg.connection LOG_OBJECT LOG_FIELDS
     (FakeOrg.start FakeOrg.partial_org)).1 = Ok false ∧
  (Sf.verifyObject FakeOrg.connection LOG_OBJECT LOG_FIELDS
     (FakeOrg.start FakeOrg.ready_org)).1 = Ok true.
Proof.
  split; [|split; [|split]].
  - apply (proj1 (verifyObject_cases FakeOrg.connection LOG_OBJECT LOG_FIELDS
                    (FakeOrg.start FakeOrg.empty_org)) FakeOrg.not_found);
      by vm_compute.
  - apply (proj1 (proj2 (verifyObject_cases FakeOrg.connection LOG_OBJECT
                           LOG_FIELDS (FakeOrg.start FakeOrg.offline_org)))
             FakeOrg.unreachable); by vm_compute.
  - apply (proj1 (proj2 (proj2 (verifyObject_cases FakeOrg.connection LOG_OBJECT
                           LOG_FIELDS (FakeOrg.start FakeOrg.partial_org))))
             {| fields := map Build_Field ["Id"; "Level__c"; "Message__c";
                                           "Stack__c"; "System__c"; "CreatedDate"] |}
             "User__c").
    + by vm_compute.
    + apply (bool_decide_unpack _). by vm_compute.
    + apply (bool_decide_unpack _). by vm_compute.
  - apply (proj2 (proj2 (proj2 (verifyObject_cases FakeOrg.connection LOG_OBJECT
                           LOG_FIELDS (FakeOrg.start FakeOrg.ready_org))))).
    exists {| fields := map Build_Field LOG_FIELDS |}. split; [by vm_compute|].
    intros f Hf. simpl. exact Hf.
Defined.

(** When the first verification succeeds, [setupLog] is that verification
    and nothing more. *)
Lemma setupLog_verified {St} (conn : Connection St) (folder : string)
    (w : World St) :
  (Setup.verifyLog conn w).1 = Ok true →
  Setup.setupLog conn folder w = (Ok tt, (Setup.verifyLog conn w).2).
Proof.
  intros H. unfold Setup.setupLog, bind, ret.
  destruct (Setup.verifyLog conn w) as [[b|e] w1]; simpl in *; [|done].
  by injection H as ->.
Qed.

(** A successful [setupLog] ends with a successful verification, and its
    last remote call is the describe of that verification. *)
Lemma setupLog_ends_verified {St} (conn : Connection St) (folder : string)
    (w : World St) :
  (Setup.setupLog conn folder w).1 = Ok tt →
  ∃ w', (Setup.verifyLog conn w').1 = Ok true ∧
        (Setup.setupLog conn folder w).2 = (Setup.verifyLog conn w').2.
Proof.
  unfold Setup.setupLog, bind, ret, throw.
  destruct (Setup.verifyLog conn w) as [[[|]|e] w1] eqn:E1; simpl.
  - intros _. exists w. by rewrite E1.
  - destruct (Setup.deployLog conn folder w1) as [[?|?] w2]; [|done].
    destruct (Setup.assignPermissionSetForLog conn w2) as [[?|?] w3]; [|done].
    destruct (Setup.verifyLog conn w3) as [[[|]|?] w4] eqn:E4; simpl; try done.
    intros _. exists w3. by rewrite E4.
  - done.
Qed.

(** C6 (setup is idempotent).  On an org where describing the log object
    succeeds and lists every required field, [setup] makes the one
    describe call and returns: no deploy, no permission-set assignment.
    Hence, describe being a read of the org, a [setup] that follows a
    successful [setup] makes one describe call and no other remote call. *)
Theorem setupLog_only_verifies_when_provisioned {St : Type}
    (conn : Connection St) (folder : string) :
  (∀ (w : World St) (d : DescribeSObjectResult),
     (conn_describe conn LOG_OBJECT (backend w)).1 = Ok d →
     (∀ f, f ∈ LOG_FIELDS → f ∈ map name (fields d)) →
     (Setup.setupLog conn folder w).1 = Ok tt ∧
     calls (Setup.setupLog conn folder w).2
       = (calls w ++ [CallDescribe LOG_OBJECT])%list ∧
     filter (fun c => is_mutation c = true) (calls (Setup.setupLog conn folder w).2)
       = filter (fun c => is_mutation c = true) (calls w)) ∧
  ((∀ s, (conn_describe conn LOG_OBJECT s).2 = s) →
   ∀ w : World St,
     (Setup.setupLog conn folder w).1 = Ok tt →
     let w1 := (Setup.setupLog conn folder w).2 in
     (Setup.setupLog conn folder w1).1 = Ok tt ∧
     calls (Setup.setupLog conn folder w1).2
       = (calls w1 ++ [CallDescribe LOG_OBJECT])%list ∧
     backend (Setup.setupLog conn folder w1).2 = backend w1).
Proof.
  assert (∀ w : World St, (Setup.verifyLog conn w).1 = Ok true →
     (Setup.setupLog conn folder w).1 = Ok tt ∧
     calls (Setup.setupLog conn folder w).2
       = (calls w ++ [CallDescribe LOG_OBJECT])%list ∧
     backend (Setup.setupLog conn folder w).2
       = (conn_describe conn LOG_OBJECT (backend w)).2) as Hverified.
  { intros w Hw. rewrite (setupLog_verified conn folder w Hw). simpl.
    split; [done|]. apply verifyObject_calls. }
  split.
  - intros w d Hd Hall.
    assert ((Setup.verifyLog conn w).1 = Ok true) as Hw.
    { apply verifyObject_true_iff. eauto. }
    destruct (Hverified w Hw) as (Hok & Hcalls & _).
    split; [done|]. split; [done|].
    rewrite Hcalls, filter_app, filter_cons_False by done.
    rewrite filter_nil. apply app_nil_r.
  - intros Hread w Hok w1.
    destruct (setupLog_ends_verified conn folder w Hok) as (w' & Hw' & Hw1).
    fold w1 in Hw1.
    assert (backend w1 = backend w') as Hbackend.
    { destruct (verifyObject_calls conn LOG_OBJECT LOG_FIELDS w') as [_ Hb].
      rewrite Hw1. unfold Setup.verifyLog. by rewrite Hb, Hread. }
    assert ((Setup.verifyLog conn w1).1 = Ok true) as Hw.
    { unfold Setup.verifyLog in *. rewrite verifyObject_result in *.
      by rewrite Hbackend. }
    destruct (Hverified w1 Hw) as (Hok1 & Hcalls1 & Hbackend1).
    by rewrite Hread in Hbackend1.
Qed.

(** A second setup of a fresh org after the first has provisioned it, and
    a setup of an org that was ready from the start. *)
Lemma setupLog_only_verifies_when_provisioned_witness :
  let first := Setup.setupLog FakeOrg.connection "/pkg/force"
                 (FakeOrg.start FakeOrg.empty_org) in
  let second := Setup.setupLog FakeOrg.connection "/pkg/force" first.2 in
  (∀ s, (conn_describe FakeOrg.connection LOG_OBJECT s).2 = s) ∧
  first.1 = Ok tt ∧
  second.1 = Ok tt ∧
  calls second.2 = (calls first.2 ++ [CallDescribe LOG_OBJECT])%list ∧
  calls (Setup.setupLog FakeOrg.connection "/pkg/force"
           (FakeOrg.start FakeOrg.ready_org)).2 = [CallDescribe LOG_OBJECT].
Proof.
  intros first second.
  assert (∀ s, (conn_describe FakeOrg.connection LOG_OBJECT s).2 = s) as Hread.
  { intros s. simpl. unfold FakeOrg.fake_describe.
    destruct (negb _); [done|]. by destruct (_ !! _). }
  assert (first.1 = Ok tt) as Hfirst by (by vm_compute).
  split; [exact Hread|]. split; [exact Hfirst|].
  destruct (proj2 (setupLog_only_verifies_when_provisioned FakeOrg.connection
                     "/pkg/force") Hread (FakeOrg.start FakeOrg.empty_org) Hfirst)
    as (Hsecond & Hcalls & _).
  split; [exact Hsecond|]. split; [exact Hcalls|].
  apply (proj1 (setupLog_only_verifies_when_provisioned FakeOrg.connection
                  "/pkg/force") (FakeOrg.start FakeOrg.ready_org)
           {| fields := map Build_Field LOG_FIELDS |}).
  - by vm_compute.
  - intros f Hf. exact Hf.
Defined.

(** ** Retrieval *)

(** The query text: the unbounded query, and a [LIMIT] clause behind it
    for a truthy row cap. *)
Lemma getLogs_soql_shape (options : option Logger.GetLogsOptions) :
  Logger.getLogs_soql options
    = unbounded_query ++
      match options with
      | Some {| Logger.limit := Some n |} =>
          if truthy_number n then " LIMIT " ++ number_to_string n else ""
      | _ => ""
      end.
Proof.
  destruct options as [[[n|]]|]; [|reflexivity|reflexivity].
  unfold Logger.getLogs_soql.
  cbv beta iota zeta delta [Logger.limit].
  destruct (truthy_number n); reflexivity.
Qed.

(** The numbers that are falsy: the two zeros and [NaN]. *)
Lemma truthy_number_false (n : number) :
  truthy_number n = false ↔
  n = NaN ∨ n = NegativeZero ∨ ∃ safe, n = Integer 0 safe.
Proof.
  split.
  - destruct n as [| |  |n safe|]; simpl; try done; auto.
    intros H. apply negb_false_iff, Z.eqb_eq in H. subst n. eauto.
  - intros [->|[->|[safe ->]]]; done.
Qed.

Lemma getLogs_run {St} (this : Logger.t) (options : option Logger.GetLogsOptions)
    (w : World St) :
  calls (Logger.getLogs this options w).2
    = (calls w ++ [CallQuery (Logger.getLogs_soql options)])%list ∧
  (Logger.getLogs this options w).1
    = match (conn_query (Logger.conn this) (Logger.getLogs_soql options)
               (backend w)).1 with
      | Ok result => Ok (map fromSfLog (records result))
      | Throw e => Throw e
      end.
Proof.
  unfold Logger.getLogs, bind, Sf.query, remote, ret.
  by destruct (conn_query _ _ _) as [[?|?] ?].
Qed.

(** At a row cap of zero the query carries no [LIMIT 0]. *)
Lemma getLogs_zero_limit_counterexample :
  Logger.getLogs_soql (Some {| Logger.limit := Some (Integer 0 eq_refl) |})
    ≠ unbounded_query ++ " LIMIT " ++ number_to_string (Integer 0 eq_refl).
Proof. by vm_compute. Qed.

(** C8 (query and result of getLogs), amended.  The query [getLogs]
    issues is [SELECT <LOG_FIELDS, comma separated> FROM Log__c ORDER BY
    CreatedDate DESC], followed by [ LIMIT <n>] when a row cap [n] is given
    that is truthy, that is any number but [0], [-0] and [NaN], with [<n>]
    the string form of the number, which for an integer of magnitude below
    2^53 is its decimal numeral; for [0], [-0] and [NaN] nothing follows,
    as when no row cap is given.  The query is the one remote call made,
    and the list returned is the list of rows the backend answers with,
    each mapped through [fromSfLog], in the same order. *)
Theorem getLogs_query_and_rows {St : Type} (this : Logger.t)
    (options : option Logger.GetLogsOptions) (w : World St) :
  unbounded_query
    = "SELECT " ++ join ", " LOG_FIELDS ++ " FROM " ++ LOG_OBJECT
      ++ " ORDER BY CreatedDate DESC" ∧
  Logger.getLogs_soql options
    = unbounded_query ++
      match options with
      | Some {| Logger.limit := Some n |} =>
          if truthy_number n then " LIMIT " ++ number_to_string n else ""
      | _ => ""
      end ∧
  (∀ n, truthy_number n = false ↔
        n = NaN ∨ n = NegativeZero ∨ ∃ safe, n = Integer 0 safe) ∧
  (∀ n safe, n ≠ 0 →
     Logger.getLogs_soql (Some {| Logger.limit := Some (Integer n safe) |})
       = unbounded_query ++ " LIMIT " ++ pretty n) ∧
  calls (Logger.getLogs this options w).2
    = (calls w ++ [CallQuery (Logger.getLogs_soql options)])%list ∧
  ∀ result,
    (conn_query (Logger.conn this) (Logger.getLogs_soql options) (backend w)).1
      = Ok result →
    ∃ logs, (Logger.getLogs this options w).1 = Ok logs ∧
      logs = map fromSfLog (records result) ∧
      length logs = length (records result) ∧
      ∀ (i : nat) row, records result !! i = Some row →
                       logs !! i = Some (fromSfLog row).
Proof.
  split; [reflexivity|]. split; [apply getLogs_soql_shape|].
  split; [apply truthy_number_false|]. split.
  { intros n safe Hn. rewrite getLogs_soql_shape. simpl.
    by rewrite (proj2 (Z.eqb_neq n 0) Hn). }
  destruct (getLogs_run this options w) as [Hcalls Hresult].
  split; [exact Hcalls|].
  intros result Hq. rewrite Hq in Hresult.
  eexists. split; [exact Hresult|]. split; [done|].
  split; [apply length_map|].
  intros i row Hrow.
  change (map fromSfLog (records result)) with (fromSfLog <$> records result).
  by rewrite list_lookup_fmap, Hrow.
Qed.

(** Reading back the two rows of the fake org, with a row cap of five. *)
Lemma getLogs_query_and_rows_witness :
  let w := FakeOrg.start
             (FakeOrg.fake_insert LOG_OBJECT Examples.undefined_system_record
                (FakeOrg.fake_insert LOG_OBJECT Examples.long_record
                   FakeOrg.ready_org).2).2 in
  let options := Some {| Logger.limit := Some (Integer 5 eq_refl) |} in
  Logger.getLogs_soql options = unbounded_query ++ " LIMIT 5" ∧
  ∃ logs, (Logger.getLogs Examples.SU_logger options w).1 = Ok logs ∧
    length logs = 2%nat.
Proof.
  intros w options.
  destruct (getLogs_query_and_rows Examples.SU_logger options w)
    as (_ & _ & _ & Hlimit & _ & Hrows).
  split; [by apply (Hlimit 5 eq_refl)|].
  destruct (Hrows {| records := FakeOrg.rows (backend w) |} ltac:(by vm_compute))
    as (logs & Hlogs & _ & Hlen & _).
  exists logs. split; [exact Hlogs|]. by rewrite Hlen.
Defined.

(** C9 (a row cap of zero).  [getLogs({limit: 0})] issues the query
    without any [LIMIT] clause, the very query issued when no row cap is
    given, and so behaves as [getLogs()]: it asks for all rows, not for
    none. *)
Theorem getLogs_zero_limit_is_unbounded {St : Type} (this : Logger.t)
    (w : World St) :
  let zero := Some {| Logger.limit := Some (Integer 0 eq_refl) |} in
  Logger.getLogs_soql zero = unbounded_query ∧
  contains (Logger.getLogs_soql zero) "LIMIT" = false ∧
  Logger.getLogs_soql zero = Logger.getLogs_soql None ∧
  Logger.getLogs_soql zero = Logger.getLogs_soql (Some {| Logger.limit := None |}) ∧
  Logger.getLogs this zero w = Logger.getLogs this None w ∧
  calls (Logger.getLogs this zero w).2
    = (calls w ++ [CallQuery unbounded_query])%list.
Proof.
  intros zero.
  assert (Logger.getLogs_soql zero = unbounded_query) as Hzero by (by vm_compute).
  repeat split; try (by vm_compute).
  destruct (getLogs_run this zero w) as [Hcalls _]. by rewrite Hcalls, Hzero.
Qed.


(** * Further properties of the code *)

(** ** More on strings *)

Lemma substring_0_app (n : nat) (a b : string) :
  substring 0 n (a ++ b)
    = if (n <=? String.length a)%nat then substring 0 n a
      else a ++ substring 0 (n - String.length a) b.
Proof.
  revert n. induction a as [|c a IH]; intros n.
  - simpl. destruct n; [by destruct b|]. by rewrite Nat.sub_0_r.
  - destruct n as [|n]; [done|].
    rewrite string_app_cons. simpl. rewrite IH.
    by destruct (n <=? String.length a)%nat.
Qed.

Lemma string_app_length (a b : string) :
  String.length (a ++ b) = (String.length a + String.length b)%nat.
Proof.
  induction a as [|c a IH]; [done|]. rewrite string_app_cons. simpl. by rewrite IH.
Qed.

(** A cut that falls inside the first part of a string ignores the rest. *)
Lemma slice_0_app_short (a b : string) (n : Z) :
  0 ≤ n ≤ Z.of_nat (String.length a) → slice (a ++ b) 0 n = slice a 0 n.
Proof.
  intros Hn. rewrite !slice_0 by lia. rewrite string_app_length, substring_0_app.
  rewrite !Z.min_l by lia.
  destruct (Nat.leb_spec (Z.to_nat n) (String.length a)); [done|lia].
Qed.

(** A cut that falls behind the first part keeps the first part. *)
Lemma slice_0_app_long (a b : string) (n : Z) :
  Z.of_nat (String.length a) ≤ n → ∃ rest, slice (a ++ b) 0 n = a ++ rest.
Proof.
  intros Hn. rewrite slice_0 by lia. rewrite string_app_length, substring_0_app.
  destruct (Nat.leb_spec (Z.to_nat (Z.min n (Z.of_nat (String.length a + String.length b))))
              (String.length a)) as [Hle|Hlt].
  - exists "". rewrite string_app_nil_r.
    assert (Z.to_nat (Z.min n (Z.of_nat (String.length a + String.length b)))
            = String.length a) as -> by lia.
    clear. induction a as [|c a IH]; [done|]. simpl. by rewrite IH.
  - eauto.
Qed.

(** ** More on the record mapper *)

(** The five-field literal, as a map. *)
Lemma sf_literal_dom (level message stack system user : val) :
  dom (object [ "Level__c" ::= level; "Message__c" ::= message;
                "Stack__c" ::= stack; "System__c" ::= system;
                "User__c" ::= user ])
    = (list_to_set sf_keys : gset string).
Proof.
  unfold object; simpl. rewrite !dom_insert_L, dom_empty_L. set_solver.
Qed.

(** [toSfLog] throws exactly on a record whose message reads [undefined]. *)
Lemma toSfLog_result (r : obj) :
  toSfLog r =
    match get r "message" with
    | VStr m =>
        Ok (object [ "Level__c" ::= get r "level";
                     "Message__c" ::= VStr (slice m 0 255);
                     "Stack__c" ::= opt_slice (get r "stack") 0 32768;
                     "System__c" ::= opt_slice (get r "system") 0 255;
                     "User__c" ::= opt_slice (get r "user") 0 80 ])
    | VUndef =>
        Throw (TypeError "Cannot read properties of undefined (reading 'slice')")
    end.
Proof. unfold toSfLog. by destruct (get r "message"). Qed.

(** X1.  Mapping back and forth settles after one round: for a BaseLog
    record [r] with [toSfLog r = sf], the log read back from [sf] (with any
    [Id] and [CreatedDate] attached) is mapped by [toSfLog] to [sf] again;
    nothing is cut a second time. *)
Theorem toSfLog_of_read_back_log (r sf : obj) (Id CreatedDate : val) :
  BaseLog r →
  toSfLog r = Ok sf →
  toSfLog (fromSfLog (object [ ... sf; "Id" ::= Id;
                               "CreatedDate" ::= CreatedDate ])) = Ok sf.
Proof.
  intros Hr Hsf. destruct (toSfLog_BaseLog r Hr) as (m & Hm & Hlit).
  rewrite Hlit in Hsf. injection Hsf as Hsf.
  set (stored := object [ ... sf; "Id" ::= Id; "CreatedDate" ::= CreatedDate ]).
  assert (∀ k, k ≠ "Id" → k ≠ "CreatedDate" → get stored k = get sf k) as Hkeep.
  { intros k. apply (get_attach_ids sf Id CreatedDate k). }
  destruct (get_fromSfLog stored) as (_ & Hl & Hmsg & Hst & Hsy & Hu & _).
  rewrite !Hkeep in Hl, Hmsg, Hst, Hsy, Hu by done.
  pose proof (get_sf_literal (get r "level") (VStr (slice m 0 255))
                (opt_slice (get r "stack") 0 32768)
                (opt_slice (get r "system") 0 255)
                (opt_slice (get r "user") 0 80)) as Hlitget.
  cbv zeta in Hlitget. rewrite Hsf in Hlitget.
  destruct Hlitget as (Hl' & Hm' & Hs' & Hy' & Hu').
  rewrite toSfLog_result, Hl, Hmsg, Hst, Hsy, Hu, Hl', Hm', Hs', Hy', Hu'.
  rewrite slice_0_idempotent, !opt_slice_idempotent by lia.
  by rewrite Hsf.
Qed.

Lemma toSfLog_of_read_back_log_witness :
  ∃ sf, toSfLog Examples.long_record = Ok sf ∧
    toSfLog (fromSfLog (object [ ... sf; "Id" ::= VStr "a001";
                                 "CreatedDate" ::= VStr "2025-01-01" ])) = Ok sf.
Proof.
  assert (BaseLog Examples.long_record) as Hr
    by (apply isBaseLog_sound; vm_compute; reflexivity).
  destruct (toSfLog_BaseLog _ Hr) as (m & _ & Hsf).
  eexists. split; [exact Hsf|].
  exact (toSfLog_of_read_back_log _ _ (VStr "a001") (VStr "2025-01-01") Hr Hsf).
Defined.

(** [toSfLog] fails exactly when the message of its argument reads
    [undefined], whatever else the record holds; then it throws a
    TypeError, and otherwise it returns a record. *)
Lemma toSfLog_throws_iff_message_undefined (r : obj) :
  (get r "message" = VUndef ↔
     toSfLog r
       = Throw (TypeError "Cannot read properties of undefined (reading 'slice')")) ∧
  (get r "message" ≠ VUndef ↔ ∃ sf, toSfLog r = Ok sf).
Proof.
  rewrite toSfLog_result. destruct (get r "message") as [|m]; split; split;
    try done; eauto.
  - by intros [sf ?].
Qed.

(** X2.  The mapper passes on nothing but its own fields.  The record of
    [toSfLog] has exactly the five backend keys and is the same for two
    records that agree on level, message, stack, system and user; the log
    of [fromSfLog] has exactly the seven log keys and is the same for two
    rows that agree on the columns of [LOG_FIELDS]. *)
Theorem mapper_reads_only_its_fields :
  (∀ r sf, toSfLog r = Ok sf → dom sf = (list_to_set sf_keys : gset string)) ∧
  (∀ r r' : obj,
     (∀ k, k ∈ ["level"; "message"; "stack"; "system"; "user"] →
           get r k = get r' k) →
     toSfLog r = toSfLog r') ∧
  (∀ row : obj, dom (fromSfLog row) = (list_to_set log_keys : gset string)) ∧
  (∀ row row' : obj,
     (∀ k, k ∈ LOG_FIELDS → get row k = get row' k) →
     fromSfLog row = fromSfLog row').
Proof.
  split; [|split; [|split]].
  - intros r sf. rewrite toSfLog_result. destruct (get r "message"); [done|].
    intros [= <-]. apply sf_literal_dom.
  - intros r r' H. rewrite !toSfLog_result.
    rewrite (H "level"), (H "message"), (H "stack"), (H "system"), (H "user");
      first done; apply (bool_decide_unpack _); by vm_compute.
  - intros row. unfold fromSfLog, object; simpl.
    rewrite !dom_insert_L, dom_empty_L. set_solver.
  - intros row row' H. unfold fromSfLog.
    rewrite (H "Id"), (H "Level__c"), (H "Message__c"), (H "Stack__c"),
      (H "System__c"), (H "User__c"), (H "CreatedDate");
      first done; apply (bool_decide_unpack _); by vm_compute.
Qed.

Lemma mapper_reads_only_its_fields_witness :
  toSfLog (<["color" := VStr "red"]> Examples.long_record)
    = toSfLog Examples.long_record ∧
  ∃ sf, toSfLog (<["color" := VStr "red"]> Examples.long_record) = Ok sf ∧
    dom sf = (list_to_set sf_keys : gset string).
Proof.
  assert (toSfLog (<["color" := VStr "red"]> Examples.long_record)
          = toSfLog Examples.long_record) as Heq.
  { apply (proj1 (proj2 mapper_reads_only_its_fields)).
    intros k Hk. unfold get. rewrite lookup_insert_ne; [done|].
    elem_of_cases Hk; done. }
  split; [exact Heq|].
  assert (BaseLog Examples.long_record) as Hr
    by (apply isBaseLog_sound; vm_compute; reflexivity).
  destruct (toSfLog_BaseLog _ Hr) as (m & _ & Hsf).
  rewrite <- Heq in Hsf. eexists. split; [exact Hsf|].
  exact (proj1 mapper_reads_only_its_fields _ _ Hsf).
Defined.

(** X3.  The columns [getLogs] selects and [verifyLog] requires are the
    columns the mapper works on.  The columns of [LOG_FIELDS] are distinct;
    the keys of every record [toSfLog] returns, together with [Id] and
    [CreatedDate], are the columns of [LOG_FIELDS]; two rows are read by
    [fromSfLog] as the same log exactly when they agree on every column of
    [LOG_FIELDS]; and the log [fromSfLog] returns has as many keys as
    [LOG_FIELDS] has columns. *)
Theorem LOG_FIELDS_aligned_with_mapper :
  NoDup LOG_FIELDS ∧
  (∀ r sf : obj, toSfLog r = Ok sf →
     dom sf ∪ {[ "Id"; "CreatedDate" ]} = (list_to_set LOG_FIELDS : gset string)) ∧
  (∀ row row' : obj,
     fromSfLog row = fromSfLog row' ↔
     ∀ column, column ∈ LOG_FIELDS → get row column = get row' column) ∧
  (∀ row : obj, size (dom (fromSfLog row)) = length LOG_FIELDS).
Proof.
  split; [|split; [|split]].
  - apply (bool_decide_unpack _). by vm_compute.
  - intros r sf. rewrite toSfLog_result. destruct (get r "message"); [done|].
    intros [= <-]. rewrite sf_literal_dom.
    apply (bool_decide_unpack _). by vm_compute.
  - intros row row'. split.
    + intros Heq column Hin.
      destruct (get_fromSfLog row) as (Hi & Hl & Hm & Hs & Hy & Hu & Ht).
      destruct (get_fromSfLog row') as (Hi' & Hl' & Hm' & Hs' & Hy' & Hu' & Ht').
      rewrite Heq in Hi, Hl, Hm, Hs, Hy, Hu, Ht.
      unfold LOG_FIELDS in Hin. elem_of_cases Hin; congruence.
    + intros H. unfold fromSfLog.
      rewrite (H "Id"), (H "Level__c"), (H "Message__c"), (H "Stack__c"),
        (H "System__c"), (H "User__c"), (H "CreatedDate");
        first done; apply (bool_decide_unpack _); by vm_compute.
  - intros row. unfold fromSfLog, object; simpl.
    rewrite !dom_insert_L, dom_empty_L. by vm_compute.
Qed.

(** Two rows that differ in a column outside [LOG_FIELDS], and two that
    differ in [Stack__c]. *)
Lemma LOG_FIELDS_aligned_with_mapper_witness :
  let row : obj := {[ "Stack__c" := VStr "at main" ]} in
  fromSfLog (<["attributes" := VStr "Log__c"]> row) = fromSfLog row ∧
  fromSfLog (<["Stack__c" := VStr "at load"]> row) ≠ fromSfLog row.
Proof.
  intros row.
  destruct LOG_FIELDS_aligned_with_mapper as (_ & _ & Hrows & _). split.
  - apply Hrows. intros column Hin. unfold get.
    rewrite lookup_insert_ne; [done|].
    unfold LOG_FIELDS in Hin. elem_of_cases Hin; done.
  - intros Heq.
    pose proof (proj1 (Hrows _ _) Heq "Stack__c"
                  ltac:(apply (bool_decide_unpack _); by vm_compute)) as H.
    by vm_compute in H.
Defined.

(** ** More on [log] *)

Lemma get_merged {St} (this : Logger.t (St := St)) (r : obj) (k : string) :
  get (merged this r) k
    = match r !! k with
      | Some v => v
      | None => get (Logger.defaults this) k
      end.
Proof.
  unfold merged, get. destruct (r !! k) as [v|] eqn:Hk.
  - rewrite merged_lookup_record by eauto. by rewrite Hk.
  - by rewrite merged_lookup_default.
Qed.

(** The whole of a run of [log]: the echo, then the mapping, then the
    insert. *)
Lemma log_world {St} (this : Logger.t) (r : obj) (w : World St) :
  let echoed := if Logger.echo this
                then (output w ++ [ConsoleLogJson (merged this r)])%list
                else output w in
  Logger.log this r w =
    match toSfLog (merged this r) with
    | Throw e =>
        (Throw e, {| backend := backend w; calls := calls w; output := echoed |})
    | Ok sf =>
        (match (conn_insert (Logger.conn this) LOG_OBJECT sf (backend w)).1 with
         | Ok _ => Ok tt
         | Throw e => Throw e
         end,
         {| backend := (conn_insert (Logger.conn this) LOG_OBJECT sf (backend w)).2;
            calls := (calls w ++ [CallInsert LOG_OBJECT sf])%list;
            output := echoed |})
    end.
Proof.
  unfold Logger.log, merged, bind, lift, Sf.insert, remote, print, ret.
  destruct w as [s cs out]. simpl.
  destruct (Logger.echo this); simpl;
    (destruct (toSfLog _) as [sf|e]; simpl; [|done]);
    by destruct (conn_insert _ _ _ _) as [[?|?] ?].
Qed.

(** What [log] inserts for a record whose message is a string. *)
Lemma log_inserts {St} (this : Logger.t) (r : obj) (m : string) (w : World St) :
  get (merged this r) "message" = VStr m →
  ∃ sf, toSfLog (merged this r) = Ok sf ∧
    calls (Logger.log this r w).2 = (calls w ++ [CallInsert LOG_OBJECT sf])%list ∧
    get sf "Level__c" = get (merged this r) "level" ∧
    get sf "Message__c" = VStr (slice m 0 255) ∧
    get sf "Stack__c" = opt_slice (get (merged this r) "stack") 0 32768 ∧
    get sf "System__c" = opt_slice (get (merged this r) "system") 0 255 ∧
    get sf "User__c" = opt_slice (get (merged this r) "user") 0 80.
Proof.
  intros Hm. pose proof (toSfLog_result (merged this r)) as Hsf.
  rewrite Hm in Hsf. eexists. split; [exact Hsf|]. split.
  - pose proof (log_world this r w) as Hw. cbv zeta in Hw.
    rewrite Hsf in Hw. by rewrite Hw.
  - by read_sf_literal.
Qed.

(** X4.  A record whose message ends up [undefined] is not logged:
    [log] throws the TypeError of the mapper before any remote call, and
    leaves the org as it was.  This is what a convenience method does when
    the caller's partial record names [message] and leaves it undefined. *)
Theorem log_without_message_inserts_nothing {St : Type} (this : Logger.t)
    (w : World St) :
  (∀ r, get (merged this r) "message" = VUndef →
     (Logger.log this r w).1
       = Throw (TypeError "Cannot read properties of undefined (reading 'slice')") ∧
     calls (Logger.log this r w).2 = calls w ∧
     backend (Logger.log this r w).2 = backend w) ∧
  (∀ (level : string) (method : Logger.t → string → option obj → M St unit)
     (message : string) (partial : obj),
     (level, method) ∈ convenience →
     partial !! "message" = Some VUndef →
     (method this message (Some partial) w).1
       = Throw (TypeError "Cannot read properties of undefined (reading 'slice')") ∧
     calls (method this message (Some partial) w).2 = calls w).
Proof.
  assert (∀ r, get (merged this r) "message" = VUndef →
     (Logger.log this r w).1
       = Throw (TypeError "Cannot read properties of undefined (reading 'slice')") ∧
     calls (Logger.log this r w).2 = calls w ∧
     backend (Logger.log this r w).2 = backend w) as Hlog.
  { intros r Hm. pose proof (log_world this r w) as Hw. cbv zeta in Hw.
    rewrite toSfLog_result, Hm in Hw. by rewrite Hw. }
  split; [exact Hlog|].
  intros level method message partial Hin Hm.
  assert (∀ lvl, get (merged this (object [ "level" ::= VStr lvl;
            "message" ::= VStr message; ...? Some partial ])) "message" = VUndef)
    as Hrec.
  { intros lvl. rewrite get_merged.
    change (object _) with (level_record lvl message partial).
    rewrite level_record_lookup by eauto. by rewrite Hm. }
  unfold convenience in Hin.
  elem_of_cases Hin;
    [destruct (Hlog _ (Hrec "trace")) as (? & ? & _)
    |destruct (Hlog _ (Hrec "debug")) as (? & ? & _)
    |destruct (Hlog _ (Hrec "info")) as (? & ? & _)
    |destruct (Hlog _ (Hrec "warn")) as (? & ? & _)]; done.
Qed.

Lemma log_without_message_inserts_nothing_witness :
  let partial : obj := {[ "message" := VUndef ]} in
  let run := Logger.info Examples.SU_logger "hello" (Some partial)
               (FakeOrg.start FakeOrg.ready_org) in
  run.1 = Throw (TypeError "Cannot read properties of undefined (reading 'slice')") ∧
  calls run.2 = [].
Proof.
  intros partial run.
  apply (proj2 (log_without_message_inserts_nothing Examples.SU_logger
                  (FakeOrg.start FakeOrg.ready_org)) "info" Logger.info).
  - apply list_elem_of_In. simpl. auto.
  - by vm_compute.
Defined.

(** X5.  For a record with a string message, [log] makes exactly one
    remote call, the insert, and its outcome is the outcome of the insert:
    it returns normally whenever the insert returns, also with a result
    that reports no success, and it throws the error of the insert
    unchanged. *)
Theorem log_outcome_is_insert_outcome {St : Type} (this : Logger.t)
    (r : obj) (m : string) (w : World St) :
  get (merged this r) "message" = VStr m →
  ∃ sf, toSfLog (merged this r) = Ok sf ∧
    calls (Logger.log this r w).2 = (calls w ++ [CallInsert LOG_OBJECT sf])%list ∧
    backend (Logger.log this r w).2
      = (conn_insert (Logger.conn this) LOG_OBJECT sf (backend w)).2 ∧
    (∀ result, (conn_insert (Logger.conn this) LOG_OBJECT sf (backend w)).1
                 = Ok result → (Logger.log this r w).1 = Ok tt) ∧
    (∀ e, (conn_insert (Logger.conn this) LOG_OBJECT sf (backend w)).1
            = Throw e → (Logger.log this r w).1 = Throw e).
Proof.
  intros Hm. pose proof (toSfLog_result (merged this r)) as Hsf.
  rewrite Hm in Hsf. eexists. split; [exact Hsf|].
  pose proof (log_world this r w) as Hw. cbv zeta in Hw. rewrite Hsf in Hw.
  rewrite Hw. simpl. repeat split; by intros ? ->.
Qed.

(** X6.  The echo is a mirror and nothing else: with [echo] on, [log]
    prints the merged record once, uncut and before the insert, also when
    the mapping then fails; with [echo] off it prints nothing; and two
    loggers that differ only in [echo] make the same calls, leave the same
    org and end the same way. *)
Theorem log_echo_only_prints {St : Type} (this : Logger.t) (r : obj)
    (w : World St) :
  output (Logger.log this r w).2
    = (output w ++ if Logger.echo this
                   then [ConsoleLogJson (merged this r)] else [])%list ∧
  ∀ echo',
    let that := {| Logger.conn := Logger.conn this;
                   Logger.defaults := Logger.defaults this;
                   Logger.echo := echo' |} in
    (Logger.log that r w).1 = (Logger.log this r w).1 ∧
    calls (Logger.log that r w).2 = calls (Logger.log this r w).2 ∧
    backend (Logger.log that r w).2 = backend (Logger.log this r w).2.
Proof.
  pose proof (log_world this r w) as Hw. cbv zeta in Hw. split.
  - rewrite Hw. destruct (toSfLog _); simpl;
      destruct (Logger.echo this); by rewrite ?app_nil_r.
  - intros echo' that. pose proof (log_world that r w) as Hw'. cbv zeta in Hw'.
    rewrite Hw, Hw'. change (merged that r) with (merged this r).
    by destruct (toSfLog _).
Qed.

Lemma log_outcome_is_insert_outcome_witness :
  ∃ sf, toSfLog (merged Examples.SU_logger Examples.long_record) = Ok sf ∧
    (Logger.log Examples.SU_logger Examples.long_record
       (FakeOrg.start FakeOrg.ready_org)).1 = Ok tt.
Proof.
  destruct (log_outcome_is_insert_outcome Examples.SU_logger Examples.long_record
              ("LONG-" ++ repeat_string "A" 300)
              (FakeOrg.start FakeOrg.ready_org) ltac:(by vm_compute))
    as (sf & Hsf & _ & _ & Hok & _).
  exists sf. split; [exact Hsf|]. by apply (Hok FakeOrg.saved).
Defined.

(** ** More on the convenience methods, [error] and [fatal] *)

(** An object literal that ends in the spread of an optional record. *)
Lemma object_then_spread (base : list item) (log_ : option obj) (k : string) :
  object (base ++ [Spread log_]) !! k
    = match supplied log_ k with
      | Some v => Some v
      | None => object base !! k
      end.
Proof.
  unfold object. rewrite foldl_app. simpl. destruct log_ as [partial|]; simpl.
  - destruct (partial !! k) as [v|] eqn:Hk.
    + by apply lookup_union_Some_l.
    + by apply lookup_union_r.
  - done.
Qed.

(** Reading the merged record of a call whose record ends in the spread
    of the caller's partial record. *)
Lemma get_merged_then_spread {St} (this : Logger.t (St := St))
    (base : list item) (log_ : option obj) (k : string) :
  get (merged this (object (base ++ [Spread log_]))) k
    = default (match object base !! k with
               | Some v => v
               | None => get (Logger.defaults this) k
               end) (supplied log_ k).
Proof.
  rewrite get_merged, object_then_spread.
  by destruct (supplied log_ k).
Qed.

(** What is inserted for a record that ends in the spread of the caller's
    partial record, when the latter does not undefine the message. *)
Lemma log_then_spread_inserts {St} (this : Logger.t) (base : list item)
    (message : string) (log_ : option obj) (w : World St) :
  object base !! "message" = Some (VStr message) →
  supplied log_ "message" ≠ Some VUndef →
  let r := object (base ++ [Spread log_]) in
  let field k := default (match object base !! k with
                          | Some v => v
                          | None => get (Logger.defaults this) k
                          end) (supplied log_ k) in
  ∃ sf, calls (Logger.log this r w).2
          = (calls w ++ [CallInsert LOG_OBJECT sf])%list ∧
    get sf "Level__c" = field "level" ∧
    get sf "Message__c" = opt_slice (field "message") 0 255 ∧
    get sf "Stack__c" = opt_slice (field "stack") 0 32768 ∧
    get sf "System__c" = opt_slice (field "system") 0 255 ∧
    get sf "User__c" = opt_slice (field "user") 0 80.
Proof.
  intros Hbase Hmessage r field.
  assert (∀ k, get (merged this r) k = field k) as Hget
    by (intros k; apply get_merged_then_spread).
  assert (∃ m, field "message" = VStr m) as [m Hm].
  { unfold field. rewrite Hbase.
    destruct (supplied log_ "message") as [[|m]|]; simpl; eauto. done. }
  destruct (log_inserts this r m w) as (sf & _ & Hcalls & Hl & Hmsg & Hs & Hy & Hu).
  { by rewrite Hget. }
  exists sf. rewrite Hl, Hmsg, Hs, Hy, Hu, !Hget, Hm. done.
Qed.

(** X7.  What a convenience method stores.  For [trace], [debug], [info]
    and [warn] called with a message and an optional partial record that
    does not set [message] to [undefined], one record is inserted; each of
    its fields is the value the partial record supplies for it and, where
    it supplies none, the level of the method, the message argument, and
    the default of the logger for stack, system and user; the text fields
    are cut to their limits. *)
Theorem convenience_method_inserts {St : Type} (this : Logger.t)
    (level : string) (method : Logger.t → string → option obj → M St unit)
    (message : string) (log_ : option obj) (w : World St) :
  (level, method) ∈ convenience →
  supplied log_ "message" ≠ Some VUndef →
  ∃ sf, calls (method this message log_ w).2
          = (calls w ++ [CallInsert LOG_OBJECT sf])%list ∧
    get sf "Level__c" = default (VStr level) (supplied log_ "level") ∧
    get sf "Message__c"
      = opt_slice (default (VStr message) (supplied log_ "message")) 0 255 ∧
    get sf "Stack__c"
      = opt_slice (default (get (Logger.defaults this) "stack")
                           (supplied log_ "stack")) 0 32768 ∧
    get sf "System__c"
      = opt_slice (default (get (Logger.defaults this) "system")
                           (supplied log_ "system")) 0 255 ∧
    get sf "User__c"
      = opt_slice (default (get (Logger.defaults this) "user")
                           (supplied log_ "user")) 0 80.
Proof.
  intros Hin Hmessage.
  assert (∀ lvl, object [ "level" ::= VStr lvl; "message" ::= VStr message ]
                   !! "message" = Some (VStr message)) as Hbase
    by (intros; lookup_literal).
  unfold convenience in Hin.
  elem_of_cases Hin;
    match goal with
    | |- context [ calls (_ this message log_ w).2 ] =>
        match goal with
        | |- context [ VStr ?lvl ] =>
            exact (log_then_spread_inserts this
                     [ "level" ::= VStr lvl; "message" ::= VStr message ]
                     message log_ w (Hbase lvl) Hmessage)
        end
    end.
Qed.

Lemma convenience_method_inserts_witness :
  ∃ sf, calls (Logger.warn Examples.SU_logger "disk nearly full"
                 (Some {[ "system" := VStr "storage" ]})
                 (FakeOrg.start FakeOrg.ready_org)).2
          = [CallInsert LOG_OBJECT sf] ∧
    get sf "Level__c" = VStr "warn" ∧
    get sf "Message__c" = VStr "disk nearly full" ∧
    get sf "System__c" = VStr "storage" ∧
    get sf "User__c" = VStr "U".
Proof.
  destruct (convenience_method_inserts Examples.SU_logger "warn" Logger.warn
              "disk nearly full" (Some {[ "system" := VStr "storage" ]})
              (FakeOrg.start FakeOrg.ready_org))
    as (sf & Hcalls & Hl & Hm & _ & Hy & Hu).
  - apply list_elem_of_In. simpl. auto.
  - by vm_compute.
  - exists sf. split; [exact Hcalls|].
    rewrite Hl, Hm, Hy, Hu. by vm_compute.
Defined.

(** X8.  A thrown value that is not an [Error].  When its
    serialisation gives a string or [undefined], [error] inserts one record
    of level [error], without a stack, with the message
    [Non error thrown: ] followed by that serialisation and cut to 255 code
    units, so that it starts with [Non error thrown: ].  When the
    serialisation throws, [error] and [fatal] throw that exception and do
    nothing else, whatever partial record they are given: no echo, no
    remote call. *)
Theorem error_of_non_error {St : Type} (this : Logger.t) (w : World St) :
  (∀ json : val,
     ∃ sf rest, calls (Logger.error this (Logger.NotAnError (Ok json)) None w).2
                  = (calls w ++ [CallInsert LOG_OBJECT sf])%list ∧
       get sf "Level__c" = VStr "error" ∧
       get sf "Message__c" = VStr ("Non error thrown: " ++ rest) ∧
       get sf "Message__c"
         = VStr (slice ("Non error thrown: " ++ to_string json) 0 255) ∧
       get sf "Stack__c" = VUndef) ∧
  (∀ (e : Exn) (log_ : option obj),
     Logger.error this (Logger.NotAnError (Throw e)) log_ w = (Throw e, w) ∧
     Logger.fatal this (Logger.NotAnError (Throw e)) log_ w = (Throw e, w)).
Proof.
  split.
  - intros json.
    rewrite (error_run_ok this (Logger.NotAnError (Ok json))
               ("Non error thrown: " ++ to_string json) VUndef None w eq_refl).
    destruct (log_then_spread_inserts this
                [ "level" ::= VStr "error";
                  "message" ::= VStr ("Non error thrown: " ++ to_string json);
                  "stack" ::= VUndef ]
                ("Non error thrown: " ++ to_string json) None w)
      as (sf & Hcalls & Hl & Hm & Hs & _); [lookup_literal|done|].
    destruct (slice_0_app_long "Non error thrown: " (to_string json) 255)
      as [rest Hrest]; [by vm_compute|].
    exists sf, rest. split; [exact Hcalls|].
    rewrite Hl, Hm, Hs. unfold object; simpl. simplify_map_eq. simpl.
    by rewrite Hrest.
  - intros e log_. unfold Logger.fatal. split; by apply error_run_throw.
Qed.



(** What [error] inserts when no partial record is given. *)
Lemma error_inserts {St} (this : Logger.t) (thrown : Logger.Thrown)
    (parts : string * val) (w : World St) :
  Logger.error_parts thrown = Ok parts →
  ∃ sf, calls (Logger.error this thrown None w).2
          = (calls w ++ [CallInsert LOG_OBJECT sf])%list ∧
    get sf "Message__c" = VStr (slice parts.1 0 255) ∧
    get sf "Stack__c" = opt_slice parts.2 0 32768.
Proof.
  destruct parts as [msg stk]. intros Hparts.
  rewrite (error_run_ok this thrown msg stk None w Hparts).
  destruct (log_then_spread_inserts this
              [ "level" ::= VStr "error"; "message" ::= VStr msg;
                "stack" ::= stk ] msg None w)
    as (sf & Hcalls & _ & Hm & Hs & _); [lookup_literal|done|].
  exists sf. split; [exact Hcalls|]. rewrite Hm, Hs.
  unfold object; simpl. by simplify_map_eq.
Qed.

(** X10.  The first error comes first, and the causes are what the cut
    takes away.  For an [Error] with a cause chain, the message inserted
    starts with the whole message of the error itself when that has at
    most 255 code units, and is that message cut to 255 code units, with
    nothing of the causes, when it has 255 or more; likewise for a stack of
    32768 code units or more. *)
Theorem error_cut_drops_causes_first {St : Type} (this : Logger.t)
    (message : string) (stack : val) (cause : Logger.Thrown) (w : World St) :
  ∃ sf, calls (Logger.error this (Logger.AnError message stack cause) None w).2
          = (calls w ++ [CallInsert LOG_OBJECT sf])%list ∧
    (Z.of_nat (String.length message) ≤ 255 →
       ∃ rest, get sf "Message__c" = VStr (message ++ rest)) ∧
    (255 ≤ Z.of_nat (String.length message) →
       get sf "Message__c" = VStr (slice message 0 255)) ∧
    (∀ s, stack = VStr s → 32768 ≤ Z.of_nat (String.length s) →
       get sf "Stack__c" = VStr (slice s 0 32768)).
Proof.
  destruct (error_inserts this (Logger.AnError message stack cause)
              (Logger.walk_causes message stack cause) w eq_refl)
    as (sf & Hcalls & Hm & Hs).
  rewrite walk_causes_links in Hm, Hs.
  simpl fst in Hm; simpl snd in Hs.
  exists sf. split; [exact Hcalls|]. split; [|split].
  - intros Hshort. rewrite Hm.
    destruct (slice_0_app_long message
                (concat_strings (map (λ link, " | Cause: " ++ link.1)
                                     (error_links cause))) 255 Hshort)
      as [rest ->]. eauto.
  - intros Hlong. rewrite Hm. f_equal. apply slice_0_app_short. lia.
  - intros s -> Hlong. rewrite Hs.
    destruct (error_links cause); simpl; [done|].
    f_equal. apply slice_0_app_short. lia.
Qed.

Lemma error_cut_drops_causes_first_witness :
  ∃ sf, calls (Logger.error Examples.SU_logger
                 (Logger.AnError (repeat_string "x" 255) VUndef Examples.mid_error)
                 None (FakeOrg.start FakeOrg.ready_org)).2
          = [CallInsert LOG_OBJECT sf] ∧
    get sf "Message__c" = VStr (repeat_string "x" 255).
Proof.
  destruct (error_cut_drops_causes_first Examples.SU_logger
              (repeat_string "x" 255) VUndef Examples.mid_error
              (FakeOrg.start FakeOrg.ready_org))
    as (sf & Hcalls & _ & Hlong & _).
  exists sf. split; [exact Hcalls|].
  rewrite Hlong; by vm_compute.
Defined.

(** X11.  A constructed logger has a string default for system and for
    user and for nothing else: the option given, also the empty string,
    and the host name or the user name of the machine when the option is
    [undefined]; it echoes only when asked to.  So a record with a string
    message that has no [system], [user] or [stack] key is inserted with
    these defaults, cut to 255 and 80 code units, and without a stack. *)
Theorem constructed_logger_fills_system_and_user {St : Type}
    (hostname username : string) (conn : Connection St) (echo : option bool)
    (system user : val) :
  let this := Logger.new hostname username conn echo system user in
  let system_default := match system with VStr s => s | VUndef => hostname end in
  let user_default := match user with VStr s => s | VUndef => username end in
  dom (Logger.defaults this) = ({[ "system"; "user" ]} : gset string) ∧
  Logger.defaults this !! "system" = Some (VStr system_default) ∧
  Logger.defaults this !! "user" = Some (VStr user_default) ∧
  Logger.echo this = default false echo ∧
  ∀ (r : obj) (m : string) (w : World St),
    r !! "message" = Some (VStr m) →
    ∃ sf, calls (Logger.log this r w).2
            = (calls w ++ [CallInsert LOG_OBJECT sf])%list ∧
      (r !! "system" = None →
         get sf "System__c" = VStr (slice system_default 0 255)) ∧
      (r !! "user" = None →
         get sf "User__c" = VStr (slice user_default 0 80)) ∧
      (r !! "stack" = None → get sf "Stack__c" = VUndef).
Proof.
  intros this system_default user_default.
  pose proof (new_defaults hostname username conn echo system user) as Hd.
  cbv zeta in Hd. fold this in Hd. destruct Hd as (Hsys & Husr & Hother).
  assert (nullish system (VStr hostname) = VStr system_default) as Hs
    by (by destruct system).
  assert (nullish user (VStr username) = VStr user_default) as Hu
    by (by destruct user).
  rewrite Hs in Hsys. rewrite Hu in Husr.
  split; [|split; [done|split; [done|split; [done|]]]].
  - unfold this, Logger.new, object; simpl.
    rewrite !dom_insert_L, dom_empty_L. set_solver.
  - intros r m w Hm.
    destruct (log_inserts this r m w) as (sf & _ & Hcalls & _ & _ & Hst & Hsy & Hus).
    { by rewrite get_merged, Hm. }
    exists sf. split; [exact Hcalls|].
    rewrite Hst, Hsy, Hus, !get_merged. unfold get.
    rewrite Hsys, Husr, (Hother "stack") by done.
    repeat split; by intros ->.
Qed.

Lemma constructed_logger_fills_system_and_user_witness :
  ∃ sf, calls (Logger.log (FakeOrg.logger (VStr "") VUndef)
                 (object [ "level" ::= VStr "info"; "message" ::= VStr "m" ])
                 (FakeOrg.start FakeOrg.ready_org)).2
          = [CallInsert LOG_OBJECT sf] ∧
    get sf "System__c" = VStr "" ∧
    get sf "User__c" = VStr "ci".
Proof.
  destruct (constructed_logger_fills_system_and_user "build-host" "ci"
              FakeOrg.connection None (VStr "") VUndef)
    as (_ & _ & _ & _ & Hlog).
  destruct (Hlog (object [ "level" ::= VStr "info"; "message" ::= VStr "m" ])
              "m" (FakeOrg.start FakeOrg.ready_org) ltac:(by vm_compute))
    as (sf & Hcalls & Hsys & Husr & _).
  exists sf. split; [exact Hcalls|].
  split; [apply Hsys|apply Husr]; by vm_compute.
Defined.

(** ** More on the provisioner: the permission set *)

(** Unfold the monad, so that a run becomes a cascade of matches on what
    the connection answers. *)
Ltac unfold_run :=
  unfold try_catch, try_or_leave, bind, ret, throw, lift, debug, debug_error,
    print, Sf.identity, Sf.query, Sf.create, Sf.describe, Sf.deploy, Sf.insert,
    remote.

(** X12.  When the permission set does not exist, [assignPermissionSet]
    throws [Permission set '<name>' not found] after the identity call and
    the one query: it looks for no assignment and creates none, and it
    reports the failure on the debug channel. *)
Theorem assignPermissionSet_without_permission_set {St : Type}
    (conn : Connection St) (permissionSetName : string) (w : World St)
    (userInfo : IdentityInfo) (found : QueryResult) (s1 s2 : St) :
  conn_identity conn (backend w) = (Ok userInfo, s1) →
  conn_query conn (permission_set_query permissionSetName) s1 = (Ok found, s2) →
  records found = [] →
  let failure := Error ("Permission set '" ++ permissionSetName ++ "' not found") in
  Sf.assignPermissionSet conn permissionSetName w
    = (Throw failure,
       printed
         (called (called w CallIdentity s1)
                 (CallQuery (permission_set_query permissionSetName)) s2)
         (DebugError assignment_failed failure)).
Proof.
  intros Hid Hq Hnone failure.
  unfold Sf.assignPermissionSet, permission_set_query in *. unfold_run.
  rewrite Hid. simpl. rewrite Hq. simpl. rewrite Hnone. reflexivity.
Qed.

(** X13.  When the current user holds the permission set already,
    [assignPermissionSet] returns [false] after the identity call and the
    two queries, the second about the [Id] of the first permission set
    found and the [user_id] of the identity: it creates no assignment. *)
Theorem assignPermissionSet_already_assigned {St : Type}
    (conn : Connection St) (permissionSetName : string) (w : World St)
    (userInfo : IdentityInfo) (found existing : QueryResult)
    (record0 : obj) (others : list obj) (s1 s2 s3 : St) :
  conn_identity conn (backend w) = (Ok userInfo, s1) →
  conn_query conn (permission_set_query permissionSetName) s1 = (Ok found, s2) →
  records found = record0 :: others →
  conn_query conn (assignment_query (get record0 "Id") (user_id userInfo)) s2
    = (Ok existing, s3) →
  records existing ≠ [] →
  Sf.assignPermissionSet conn permissionSetName w
    = (Ok false,
       printed
         (called (called (called w CallIdentity s1)
                    (CallQuery (permission_set_query permissionSetName)) s2)
            (CallQuery (assignment_query (get record0 "Id") (user_id userInfo))) s3)
         (DebugLine ("Permission set '" ++ permissionSetName
                     ++ "' is already assigned"))).
Proof.
  intros Hid Hq Hsome Hq2 Hexisting.
  unfold Sf.assignPermissionSet, permission_set_query, assignment_query in *.
  unfold_run.
  rewrite Hid. simpl. rewrite Hq. simpl. rewrite Hsome. simpl. rewrite Hq2. simpl.
  destruct (records existing) as [|? ?]; [done|]. reflexivity.
Qed.

(** X14.  When the permission set exists and is not assigned,
    [assignPermissionSet] creates one [PermissionSetAssignment] of that
    permission set to the current user; it returns [true] when the create
    reports success and throws [Failed to assign permission set: <errors>]
    when it does not. *)
Theorem assignPermissionSet_creates_assignment {St : Type}
    (conn : Connection St) (permissionSetName : string) (w : World St)
    (userInfo : IdentityInfo) (found existing : QueryResult)
    (record0 : obj) (others : list obj) (result : SaveResult)
    (s1 s2 s3 s4 : St) :
  conn_identity conn (backend w) = (Ok userInfo, s1) →
  conn_query conn (permission_set_query permissionSetName) s1 = (Ok found, s2) →
  records found = record0 :: others →
  conn_query conn (assignment_query (get record0 "Id") (user_id userInfo)) s2
    = (Ok existing, s3) →
  records existing = [] →
  conn_create conn "PermissionSetAssignment"
    (assignment_record (get record0 "Id") (user_id userInfo)) s3
    = (Ok result, s4) →
  let run := Sf.assignPermissionSet conn permissionSetName w in
  calls run.2
    = (calls w ++
       [CallIdentity;
        CallQuery (permission_set_query permissionSetName);
        CallQuery (assignment_query (get record0 "Id") (user_id userInfo));
        CallCreate "PermissionSetAssignment"
          (assignment_record (get record0 "Id") (user_id userInfo))])%list ∧
  backend run.2 = s4 ∧
  run.1 = if success result then Ok true
          else Throw (Error ("Failed to assign permission set: "
                             ++ Sf.errors_text (errors result))).
Proof.
  intros Hid Hq Hsome Hq2 Hnone Hcreate run. unfold run.
  unfold Sf.assignPermissionSet, permission_set_query, assignment_query,
    assignment_record in *.
  unfold_run.
  rewrite Hid. simpl. rewrite Hq. simpl. rewrite Hsome. simpl. rewrite Hq2. simpl.
  rewrite Hnone. simpl. rewrite Hcreate. simpl.
  destruct (success result); simpl; rewrite <- !app_assoc; done.
Qed.

Lemma assignPermissionSet_without_permission_set_witness :
  (Sf.assignPermissionSet FakeOrg.connection "Log"
     (FakeOrg.start FakeOrg.empty_org)).1
    = Throw (Error "Permission set 'Log' not found").
Proof.
  rewrite (assignPermissionSet_without_permission_set FakeOrg.connection "Log"
             (FakeOrg.start FakeOrg.empty_org) {| user_id := "005U" |}
             {| records := [] |} FakeOrg.empty_org FakeOrg.empty_org);
    by vm_compute.
Defined.

Lemma assignPermissionSet_already_assigned_witness :
  (Sf.assignPermissionSet FakeOrg.connection "Log"
     (FakeOrg.start FakeOrg.ready_org)).1 = Ok false.
Proof.
  rewrite (assignPermissionSet_already_assigned FakeOrg.connection "Log"
             (FakeOrg.start FakeOrg.ready_org) {| user_id := "005U" |}
             {| records := [ object [ "Id" ::= VStr "0PS1" ] ] |}
             {| records := [ object [ "Id" ::= VStr "0Pa1" ] ] |}
             (object [ "Id" ::= VStr "0PS1" ]) []
             FakeOrg.ready_org FakeOrg.ready_org FakeOrg.ready_org);
    by vm_compute.
Defined.

Lemma assignPermissionSet_creates_assignment_witness :
  let deployed := (FakeOrg.fake_deploy "/pkg/force" FakeOrg.empty_org).2 in
  (Sf.assignPermissionSet FakeOrg.connection "Log" (FakeOrg.start deployed)).1
    = Ok true.
Proof.
  intros deployed.
  destruct (assignPermissionSet_creates_assignment FakeOrg.connection "Log"
              (FakeOrg.start deployed) {| user_id := "005U" |}
              {| records := [ object [ "Id" ::= VStr "0PS1" ] ] |}
              {| records := [] |}
              (object [ "Id" ::= VStr "0PS1" ]) [] FakeOrg.saved
              deployed deployed deployed
              (FakeOrg.fake_create "PermissionSetAssignment"
                 (assignment_record (VStr "0PS1") "005U") deployed).2)
    as (_ & _ & Hresult); [by vm_compute..|exact Hresult].
Defined.

(** The shape of every run of [assignPermissionSet]: how it ends, the
    calls it makes and what it prints last. *)
Lemma assignPermissionSet_shape {St} (conn : Connection St)
    (permissionSetName : string) (w : World St) :
  let run := Sf.assignPermissionSet conn permissionSetName w in
  ∃ new, calls run.2 = (calls w ++ new)%list ∧
    (length new ≤ 4)%nat ∧
    Forall (fun c => foreign_to_assignment c = false) new ∧
    match run.1 with
    | Ok true =>
        ∃ reads record, new = (reads ++ [CallCreate "PermissionSetAssignment" record])%list
                        ∧ Forall (fun c => is_mutation c = false) reads
    | Ok false => Forall (fun c => is_mutation c = false) new
    | Throw e =>
        last (output run.2) = Some (DebugError assignment_failed e) ∧
        (length (filter (fun c => is_create c = true) new) ≤ 1)%nat
    end.
Proof.
  intros run. unfold run, Sf.assignPermissionSet. unfold_run.
  destruct (conn_identity conn (backend w)) as [[userInfo|e] s1]; simpl.
  2:{ exists [CallIdentity]. rewrite last_snoc.
      repeat split; auto; repeat constructor. }
  destruct (conn_query conn _ s1) as [[found|e] s2]; simpl.
  2:{ eexists [CallIdentity; CallQuery _]. rewrite last_snoc, <- app_assoc.
      repeat split; auto; repeat constructor. }
  destruct (records found) as [|record0 others]; simpl.
  { eexists [CallIdentity; CallQuery _]. rewrite last_snoc, <- app_assoc.
    repeat split; auto; repeat constructor. }
  destruct (conn_query conn _ s2) as [[existing|e] s3]; simpl.
  2:{ eexists [CallIdentity; CallQuery _; CallQuery _].
      rewrite last_snoc, <- !app_assoc.
      repeat split; auto; repeat constructor. }
  destruct (0 <? _); simpl.
  { eexists [CallIdentity; CallQuery _; CallQuery _]. rewrite <- !app_assoc.
    repeat split; auto; repeat constructor. }
  destruct (conn_create conn _ _ s3) as [[result|e] s4]; simpl.
  2:{ eexists [CallIdentity; CallQuery _; CallQuery _; CallCreate _ _].
      rewrite last_snoc, <- !app_assoc.
      repeat split; auto; repeat constructor. }
  destruct (success result); simpl.
  - eexists [CallIdentity; CallQuery _; CallQuery _; CallCreate _ _].
    rewrite <- !app_assoc.
    repeat split; auto; try (repeat constructor).
    eexists [CallIdentity; CallQuery _; CallQuery _], _.
    split; [reflexivity|]. repeat constructor.
  - eexists [CallIdentity; CallQuery _; CallQuery _; CallCreate _ _].
    rewrite last_snoc, <- !app_assoc.
    repeat split; auto; repeat constructor.
Qed.

(** X15.  What the result of [assignPermissionSet] tells, on any org:
    [true] is returned only after the create of the assignment, as the last
    call, and nothing else has touched the org; [false] only when no call
    has touched the org; and an error is thrown only after it was reported
    on the debug channel, as the last line.  No run makes more than four
    calls, or any describe, deploy or insert. *)
Theorem assignPermissionSet_result_meaning {St : Type} (conn : Connection St)
    (permissionSetName : string) (w : World St) :
  let run := Sf.assignPermissionSet conn permissionSetName w in
  ∃ new, calls run.2 = (calls w ++ new)%list ∧
    (length new ≤ 4)%nat ∧
    Forall (fun c => foreign_to_assignment c = false) new ∧
    (run.1 = Ok true →
       ∃ reads record,
         new = (reads ++ [CallCreate "PermissionSetAssignment" record])%list ∧
         Forall (fun c => is_mutation c = false) reads) ∧
    (run.1 = Ok false → Forall (fun c => is_mutation c = false) new) ∧
    (∀ e, run.1 = Throw e →
       last (output run.2) = Some (DebugError assignment_failed e)).
Proof.
  intros run.
  destruct (assignPermissionSet_shape conn permissionSetName w)
    as (new & Hcalls & Hlen & Hforeign & Hresult).
  fold run in Hcalls, Hresult.
  exists new. repeat split; try done.
  - intros Htrue. by rewrite Htrue in Hresult.
  - intros Hfalse. by rewrite Hfalse in Hresult.
  - intros e He. rewrite He in Hresult. apply Hresult.
Qed.

Lemma assignPermissionSet_result_meaning_witness :
  let run := Sf.assignPermissionSet FakeOrg.connection "Log"
               (FakeOrg.start Cases.unassigned_org) in
  run.1 = Ok true ∧
  ∃ reads record,
    calls run.2 = (reads ++ [CallCreate "PermissionSetAssignment" record])%list ∧
    Forall (fun c => is_mutation c = false) reads.
Proof.
  intros run.
  assert (run.1 = Ok true) as Htrue by (by vm_compute).
  split; [exact Htrue|].
  destruct (assignPermissionSet_result_meaning FakeOrg.connection "Log"
              (FakeOrg.start Cases.unassigned_org))
    as (new & Hcalls & _ & _ & Hcreated & _).
  destruct (Hcreated Htrue) as (reads & record & -> & Hreads).
  exists reads, record. split; [exact Hcalls|exact Hreads].
Defined.

(** ** More on the provisioner: setup *)

Lemma deployFolder_calls {St} (conn : Connection St) (folder : string)
    (w : World St) :
  calls (Sf.deployFolder conn folder w).2 = (calls w ++ [CallDeploy folder])%list ∧
  backend (Sf.deployFolder conn folder w).2
    = (conn_deploy conn folder (backend w)).2 ∧
  (Sf.deployFolder conn folder w).1
    = match (conn_deploy conn folder (backend w)).1 with
      | Ok result =>
          if response_success result then Ok result
          else Throw (Error ("Deploy failed: " ++ response_details result))
      | Throw e => Throw e
      end.
Proof.
  unfold Sf.deployFolder. unfold_run.
  destruct (conn_deploy conn folder (backend w)) as [[result|e] s]; simpl; [|done].
  by destruct (response_success result).
Qed.

(** X16.  A describe that fails for another reason than [NOT_FOUND] ends
    [setup] at once: the error is thrown on, and the describe is the only
    remote call. *)
Theorem setupLog_describe_error {St : Type} (conn : Connection St)
    (folder : string) (w : World St) (e : Exn) :
  (conn_describe conn LOG_OBJECT (backend w)).1 = Throw e →
  errorCode e ≠ VStr "NOT_FOUND" →
  (Setup.setupLog conn folder w).1 = Throw e ∧
  calls (Setup.setupLog conn folder w).2 = (calls w ++ [CallDescribe LOG_OBJECT])%list.
Proof.
  intros He Hcode.
  pose proof (verifyObject_result conn LOG_OBJECT LOG_FIELDS w) as Hresult.
  rewrite He, bool_decide_eq_false_2 in Hresult by done.
  destruct (verifyObject_calls conn LOG_OBJECT LOG_FIELDS w) as [Hcalls _].
  unfold Setup.setupLog, Setup.verifyLog, bind.
  destruct (Sf.verifyObject conn LOG_OBJECT LOG_FIELDS w) as [[b|e'] w1];
    simpl in *; [done|]. by injection Hresult as ->.
Qed.

Lemma setupLog_describe_error_witness :
  (Setup.setupLog FakeOrg.connection "/pkg/force"
     (FakeOrg.start FakeOrg.offline_org)).1 = Throw FakeOrg.unreachable.
Proof.
  apply (setupLog_describe_error FakeOrg.connection "/pkg/force"
           (FakeOrg.start FakeOrg.offline_org) FakeOrg.unreachable);
    by vm_compute.
Defined.

(** X17.  A deployment that fails ends [setup] before the permission
    set is touched.  When the first verification is negative and the
    deploy throws, or reports no success, [setup] throws that error, or
    [Deploy failed: <details>], and has made two calls, the describe and
    the deploy. *)
Theorem setupLog_stops_at_failed_deploy {St : Type} (conn : Connection St)
    (folder : string) (w : World St) :
  (Setup.verifyLog conn w).1 = Ok false →
  let s1 := (conn_describe conn LOG_OBJECT (backend w)).2 in
  let failure :=
    match (conn_deploy conn folder s1).1 with
    | Throw e => Some e
    | Ok result =>
        if response_success result then None
        else Some (Error ("Deploy failed: " ++ response_details result))
    end in
  ∀ e, failure = Some e →
    (Setup.setupLog conn folder w).1 = Throw e ∧
    calls (Setup.setupLog conn folder w).2
      = (calls w ++ [CallDescribe LOG_OBJECT; CallDeploy folder])%list.
Proof.
  intros Hfalse s1 failure e Hfailure.
  destruct (verifyObject_calls conn LOG_OBJECT LOG_FIELDS w) as [Hcalls Hbackend].
  unfold Setup.setupLog, Setup.deployLog, bind.
  unfold Setup.verifyLog in *.
  destruct (Sf.verifyObject conn LOG_OBJECT LOG_FIELDS w) as [[b|e'] w1];
    simpl in *; [|done]. injection Hfalse as ->. simpl.
  destruct (deployFolder_calls conn folder w1) as (Hdcalls & _ & Hdresult).
  rewrite Hbackend in Hdresult. fold s1 in Hdresult.
  unfold failure in Hfailure.
  destruct (Sf.deployFolder conn folder w1) as [[result|e'] w2]; simpl in *.
  - destruct (conn_deploy conn folder s1).1 as [r|?]; [|done].
    destruct (response_success r); done.
  - rewrite Hdcalls, Hcalls, <- app_assoc. split; [|done].
    destruct (conn_deploy conn folder s1).1 as [r|?].
    + destruct (response_success r); [done|]. congruence.
    + congruence.
Qed.

Lemma setupLog_stops_at_failed_deploy_witness :
  let run := Setup.setupLog Cases.refused_deploy_connection "/pkg/force"
               (FakeOrg.start FakeOrg.empty_org) in
  run.1 = Throw (Error "Deploy failed: componentFailures: 1") ∧
  calls run.2 = [CallDescribe LOG_OBJECT; CallDeploy "/pkg/force"].
Proof.
  apply (setupLog_stops_at_failed_deploy Cases.refused_deploy_connection
           "/pkg/force" (FakeOrg.start FakeOrg.empty_org)); by vm_compute.
Defined.

(** X18.  A [setup] that returns has seen the object complete: its last
    remote call is a describe of the log object, which succeeded and listed
    every field of [LOG_FIELDS], and the org has not been touched since. *)
Theorem setupLog_returns_only_when_verified {St : Type} (conn : Connection St)
    (folder : string) (w : World St) :
  (Setup.setupLog conn folder w).1 = Ok tt →
  let final := (Setup.setupLog conn folder w).2 in
  last (calls final) = Some (CallDescribe LOG_OBJECT) ∧
  ∃ s d, conn_describe conn LOG_OBJECT s = (Ok d, backend final) ∧
    ∀ f, f ∈ LOG_FIELDS → f ∈ map name (fields d).
Proof.
  intros Hok final.
  destruct (setupLog_ends_verified conn folder w Hok) as (w' & Hverified & Hfinal).
  fold final in Hfinal. unfold Setup.verifyLog in *.
  destruct (verifyObject_calls conn LOG_OBJECT LOG_FIELDS w') as [Hcalls Hbackend].
  apply verifyObject_true_iff in Hverified as (d & Hd & Hall).
  rewrite Hfinal, Hcalls, last_snoc. split; [done|].
  exists (backend w'), d. split; [|done].
  rewrite Hbackend. destruct (conn_describe conn LOG_OBJECT (backend w')); simpl in *.
  by subst.
Qed.

Lemma setupLog_returns_only_when_verified_witness :
  let final := (Setup.setupLog FakeOrg.connection "/pkg/force"
                  (FakeOrg.start FakeOrg.empty_org)).2 in
  last (calls final) = Some (CallDescribe LOG_OBJECT) ∧
  ∃ s d, FakeOrg.fake_describe LOG_OBJECT s = (Ok d, backend final) ∧
    ∀ f, f ∈ LOG_FIELDS → f ∈ map name (fields d).
Proof.
  apply (setupLog_returns_only_when_verified FakeOrg.connection "/pkg/force"
           (FakeOrg.start FakeOrg.empty_org)).
  by vm_compute.
Defined.

(** X19.  When the object is still incomplete after a deployment that
    reported success and an assignment that went through, [setup] throws
    [Log object setup failed]; it does not deploy a second time. *)
Theorem setupLog_fails_when_still_unverified {St : Type} (conn : Connection St)
    (folder : string) (w w1 w2 w3 : World St) (deployed : DeployResult)
    (assigned : bool) :
  Setup.verifyLog conn w = (Ok false, w1) →
  Setup.deployLog conn folder w1 = (Ok deployed, w2) →
  Setup.assignPermissionSetForLog conn w2 = (Ok assigned, w3) →
  (Setup.verifyLog conn w3).1 = Ok false →
  (Setup.setupLog conn folder w).1 = Throw (Error "Log object setup failed") ∧
  (Setup.setupLog conn folder w).2 = (Setup.verifyLog conn w3).2 ∧
  length (filter (fun c => is_deploy c = true)
                 (calls (Setup.setupLog conn folder w).2))
    = S (length (filter (fun c => is_deploy c = true) (calls w))).
Proof.
  intros H1 H2 H3 H4. unfold Setup.setupLog, bind, throw, ret.
  rewrite H1. simpl. rewrite H2, H3.
  destruct (Setup.verifyLog conn w3) as [[b|e] w4] eqn:H5; simpl in *; [|done].
  injection H4 as ->. simpl. split; [done|]. split; [done|].
  assert (calls w1 = (calls w ++ [CallDescribe LOG_OBJECT])%list) as Hc1.
  { destruct (verifyObject_calls conn LOG_OBJECT LOG_FIELDS w) as [Hc _].
    unfold Setup.verifyLog in H1. by rewrite H1 in Hc. }
  assert (calls w2 = (calls w1 ++ [CallDeploy folder])%list) as Hc2.
  { destruct (deployFolder_calls conn folder w1) as [Hc _].
    unfold Setup.deployLog in H2. by rewrite H2 in Hc. }
  destruct (assignPermissionSet_shape conn "Log" w2) as (new & Hc3 & _ & Hforeign & _).
  unfold Setup.assignPermissionSetForLog in H3. rewrite H3 in Hc3. simpl in Hc3.
  assert (calls w4 = (calls w3 ++ [CallDescribe LOG_OBJECT])%list) as Hc4.
  { destruct (verifyObject_calls conn LOG_OBJECT LOG_FIELDS w3) as [Hc _].
    unfold Setup.verifyLog in H5. by rewrite H5 in Hc. }
  assert (filter (fun c => is_deploy c = true) new = []) as Hnew.
  { clear -Hforeign. induction Hforeign as [|c l Hc _ IH]; [done|].
    rewrite filter_cons_False; [done|].
    unfold foreign_to_assignment in Hc. destruct c; simpl in *; done. }
  rewrite Hc4, Hc3, Hc2, Hc1, !filter_app, Hnew, !length_app. simpl. lia.
Qed.

Lemma setupLog_fails_when_still_unverified_witness :
  (Setup.setupLog Cases.idle_deploy_connection "/pkg/force"
     (FakeOrg.start Cases.unassigned_org)).1 = Ok tt ∧
  (Setup.setupLog Cases.idle_deploy_connection "/pkg/force"
     (FakeOrg.start FakeOrg.partial_org)).1
    = Throw (Error "Log object setup failed").
Proof.
  split; [by vm_compute|].
  set (w := FakeOrg.start FakeOrg.partial_org).
  set (w1 := (Setup.verifyLog Cases.idle_deploy_connection w).2).
  set (w2 := (Setup.deployLog Cases.idle_deploy_connection "/pkg/force" w1).2).
  set (w3 := (Setup.assignPermissionSetForLog Cases.idle_deploy_connection w2).2).
  apply (setupLog_fails_when_still_unverified Cases.idle_deploy_connection
           "/pkg/force" w w1 w2 w3
           {| response_success := true; response_details := "{}" |} false);
    by vm_compute.
Defined.

(** X20.  The remote calls of [setup], on any org and however it ends:
    the first is the describe of the log object; there are at most seven;
    none is an insert of a log row; at most one is a deploy, at most one
    creates an assignment, and at most two are describes. *)
Theorem setupLog_call_budget {St : Type} (conn : Connection St)
    (folder : string) (w : World St) :
  ∃ new, calls (Setup.setupLog conn folder w).2
           = (calls w ++ CallDescribe LOG_OBJECT :: new)%list ∧
    (length new ≤ 6)%nat ∧
    Forall (fun c => is_insert c = false) new ∧
    (length (filter (fun c => is_deploy c = true) new) ≤ 1)%nat ∧
    (length (filter (fun c => is_create c = true) new) ≤ 1)%nat ∧
    (length (filter (fun c => is_describe c = true) new) ≤ 1)%nat.
Proof.
  unfold Setup.setupLog, bind, ret, throw.
  pose proof (verifyObject_calls conn LOG_OBJECT LOG_FIELDS w) as [Hc1 _].
  fold (Setup.verifyLog conn) in Hc1.
  destruct (Setup.verifyLog conn w) as [[[|]|e] w1]; simpl in *;
    try (exists []; rewrite Hc1; repeat split; simpl; auto; lia).
  pose proof (deployFolder_calls conn folder w1) as [Hc2 _].
  fold (Setup.deployLog conn folder) in Hc2.
  destruct (Setup.deployLog conn folder w1) as [[deployed|e] w2]; simpl in *.
  2:{ exists [CallDeploy folder]. rewrite Hc2, Hc1, <- app_assoc.
      repeat split; simpl; auto; try lia; repeat constructor. }
  destruct (assignPermissionSet_shape conn "Log" w2)
    as (assign & Hc3 & Hlen & Hforeign & Hresult).
  fold (Setup.assignPermissionSetForLog conn) in Hc3, Hresult.
  assert (Forall (fun c => is_insert c = false) assign ∧
          filter (fun c => is_deploy c = true) assign = [] ∧
          filter (fun c => is_describe c = true) assign = []) as (Hi & Hd & Hv).
  { clear -Hforeign. induction Hforeign as [|c l Hc _ (IHi & IHd & IHv)];
      [by repeat split|].
    unfold foreign_to_assignment in Hc.
    rewrite !filter_cons_False by (destruct c; simpl in *; done).
    repeat split; [|done|done]. constructor; [|done]. by destruct c. }
  assert (length (filter (fun c => is_create c = true) assign) ≤ 1)%nat as Hcr.
  { destruct (Setup.assignPermissionSetForLog conn w2).1 as [[|]|e].
    - destruct Hresult as (reads & record & -> & Hreads).
      rewrite filter_app, length_app. simpl.
      assert (filter (fun c => is_create c = true) reads = []) as ->; [|simpl; lia].
      clear -Hreads. induction Hreads as [|c l Hc _ IH]; [done|].
      rewrite filter_cons_False; [done|]. by destruct c.
    - assert (filter (fun c => is_create c = true) assign = []) as ->; [|simpl; lia].
      clear -Hresult. induction Hresult as [|c l Hc _ IH]; [done|].
      rewrite filter_cons_False; [done|]. by destruct c.
    - apply Hresult. }
  assert (∀ rest,
    filter (fun c => is_deploy c = true) (CallDeploy folder :: assign ++ rest)
      = CallDeploy folder :: filter (fun c => is_deploy c = true) rest ∧
    filter (fun c => is_create c = true) (CallDeploy folder :: assign ++ rest)
      = (filter (fun c => is_create c = true) assign
         ++ filter (fun c => is_create c = true) rest)%list ∧
    filter (fun c => is_describe c = true) (CallDeploy folder :: assign ++ rest)
      = filter (fun c => is_describe c = true) rest) as Hfilters.
  { intros rest. rewrite filter_cons_True, !filter_cons_False by done.
    by rewrite !filter_app, Hd, Hv. }
  destruct (Setup.assignPermissionSetForLog conn w2) as [[assigned|e] w3];
    simpl in *.
  2:{ exists (CallDeploy folder :: assign).
      rewrite Hc3, Hc2, Hc1, <- !app_assoc.
      destruct (Hfilters []) as (Hf1 & Hf2 & Hf3).
      rewrite app_nil_r in Hf1, Hf2, Hf3. rewrite Hf1, Hf2, Hf3, app_nil_r.
      repeat split; simpl; auto; try lia. }
  pose proof (verifyObject_calls conn LOG_OBJECT LOG_FIELDS w3) as [Hc4 _].
  fold (Setup.verifyLog conn) in Hc4.
  exists (CallDeploy folder :: assign ++ [CallDescribe LOG_OBJECT])%list.
  assert (calls (Setup.verifyLog conn w3).2
          = (calls w ++ CallDescribe LOG_OBJECT :: CallDeploy folder
               :: assign ++ [CallDescribe LOG_OBJECT])%list) as Hall.
  { rewrite Hc4, Hc3, Hc2, Hc1, <- !app_assoc. done. }
  assert ((length (CallDeploy folder :: assign ++ [CallDescribe LOG_OBJECT]) ≤ 6)%nat
    ∧ Forall (fun c => is_insert c = false)
        (CallDeploy folder :: assign ++ [CallDescribe LOG_OBJECT])
    ∧ (length (filter (fun c => is_deploy c = true)
         (CallDeploy folder :: assign ++ [CallDescribe LOG_OBJECT])) ≤ 1)%nat
    ∧ (length (filter (fun c => is_create c = true)
         (CallDeploy folder :: assign ++ [CallDescribe LOG_OBJECT])) ≤ 1)%nat
    ∧ (length (filter (fun c => is_describe c = true)
         (CallDeploy folder :: assign ++ [CallDescribe LOG_OBJECT])) ≤ 1)%nat)
    as Hbudget.
  { destruct (Hfilters [CallDescribe LOG_OBJECT]) as (-> & -> & ->).
    rewrite !length_app. simpl. rewrite length_app. simpl.
    repeat split; try lia.
    constructor; [done|]. apply Forall_app. split; [done|]. by constructor. }
  destruct (Setup.verifyLog conn w3) as [[[|]|e] w4]; simpl in *; by split.
Qed.

(** ** More on verification and retrieval *)

(** X21.  What [verifyObject] reports on the debug channel when the
    describe succeeds: one line, which names the required fields that the
    object lacks, each of them and no other, in the order of the list of
    required fields and separated by commas, or says that the verification
    was successful when there is none. *)
Theorem verifyObject_reports_missing_fields {St : Type} (conn : Connection St)
    (objectName : string) (requiredFields : list string) (w : World St)
    (d : DescribeSObjectResult) :
  (conn_describe conn objectName (backend w)).1 = Ok d →
  ∃ missing,
    (∀ f, f ∈ missing ↔ f ∈ requiredFields ∧ f ∉ map name (fields d)) ∧
    missing `sublist_of` requiredFields ∧
    output (Sf.verifyObject conn objectName requiredFields w).2
      = (output w ++
         [DebugLine
            match missing with
            | [] => objectName ++ " object verification successful"
            | _ :: _ => "Missing fields on " ++ objectName ++ " object: "
                        ++ join ", " missing
            end])%list ∧
    (Sf.verifyObject conn objectName requiredFields w).1
      = Ok (bool_decide (missing = [])).
Proof.
  intros Hd.
  exists (List.filter (fun field => negb (includes (map name (fields d)) field))
                      requiredFields).
  split; [|split].
  - intros f. rewrite list_elem_of_In, filter_In, <- list_elem_of_In.
    rewrite negb_true_iff, <- not_true_iff_false, includes_elem_of. done.
  - clear. induction requiredFields as [|f l IH]; simpl; [constructor|].
    destruct (negb _); by constructor.
  - unfold Sf.verifyObject. unfold_run.
    destruct (conn_describe conn objectName (backend w)) as [[d'|e] s];
      simpl in *; [|done]. injection Hd as ->.
    destruct (List.filter _ requiredFields) as [|f l]; simpl; done.
Qed.

Lemma verifyObject_reports_missing_fields_witness :
  output (Sf.verifyObject FakeOrg.connection LOG_OBJECT LOG_FIELDS
            (FakeOrg.start FakeOrg.partial_org)).2
    = [DebugLine "Missing fields on Log__c object: User__c"].
Proof.
  destruct (verifyObject_reports_missing_fields FakeOrg.connection LOG_OBJECT
              LOG_FIELDS (FakeOrg.start FakeOrg.partial_org)
              {| fields := map Build_Field ["Id"; "Level__c"; "Message__c";
                                            "Stack__c"; "System__c"; "CreatedDate"] |})
    as (missing & _ & _ & Houtput & _); [by vm_compute|].
  rewrite Houtput. by vm_compute.
Defined.

(** X22.  [getLogs] only reads.  Its one remote call is a query; it
    prints nothing; an error of the query is thrown on unchanged; and every
    log it returns has exactly the seven keys of a log, whatever else the
    rows of the backend carry. *)
Theorem getLogs_only_reads {St : Type} (this : Logger.t)
    (options : option Logger.GetLogsOptions) (w : World St) :
  let run := Logger.getLogs this options w in
  let answer := conn_query (Logger.conn this) (Logger.getLogs_soql options)
                  (backend w) in
  filter (fun c => is_mutation c = true) (calls run.2)
    = filter (fun c => is_mutation c = true) (calls w) ∧
  output run.2 = output w ∧
  backend run.2 = answer.2 ∧
  (∀ e, answer.1 = Throw e → run.1 = Throw e) ∧
  (∀ logs, run.1 = Ok logs →
     Forall (fun log => dom log = (list_to_set log_keys : gset string)) logs).
Proof.
  intros run answer. unfold run, answer, Logger.getLogs. unfold_run.
  destruct (conn_query _ _ _) as [[result|e] s]; simpl.
  - rewrite filter_app, filter_cons_False, filter_nil, app_nil_r by done.
    repeat split; [done|].
    intros logs [= <-]. apply Forall_forall. intros log Hlog.
    apply list_elem_of_In, in_map_iff in Hlog as (row & <- & _).
    unfold fromSfLog, object; simpl.
    rewrite !dom_insert_L, dom_empty_L. set_solver.
  - rewrite filter_app, filter_cons_False, filter_nil, app_nil_r by done.
    repeat split; [by intros ? [= ->]|done].
Qed.

Lemma getLogs_only_reads_witness :
  let w := FakeOrg.start
             (FakeOrg.fake_insert LOG_OBJECT Examples.long_record
                FakeOrg.ready_org).2 in
  ∃ logs, (Logger.getLogs Examples.SU_logger None w).1 = Ok logs ∧
    Forall (fun log => dom log = (list_to_set log_keys : gset string)) logs.
Proof.
  intros w.
  destruct (getLogs_only_reads Examples.SU_logger None w) as (_ & _ & _ & _ & Hkeys).
  eexists. split; [by vm_compute|]. apply Hkeys. by vm_compute.
Defined.
